(** * hostpi: the configuration manager of the IoT sensor network

    A shallow embedding of [shared/config_manager.py] and of the default
    tables of [shared/constants.py], followed by the properties of the
    configuration store: value coercion, dot-path addressing, source
    overlay (file, then environment), schema validation, default profiles,
    persistence and reload.  The pure parts of [shared/logger.py] (sizes,
    formatters, structured events) are embedded and studied as well.

    Conventions of the embedding.
    - Python objects that live in the configuration are values of [value];
      a [dict] is an association list in insertion order with string keys
      (the data model of the configuration tree), updated in place at an
      existing key and extended at the end otherwise.
    - Strings are Rocq strings, read as sequences of characters whose
      code points are below 256; [str.lower], [int] and [float] are
      modelled on all of them, [str.upper] on those below 128, its results
      on the other letters leaving the range.
    - A statement that mutates an object is a function returning the new
      state of that object together with the exception raised, if any, so
      that a mutation performed before an exception stays visible.
    - The configuration tree has no sharing between sub-objects.  In the
      program a store built from a default profile shares the nested
      mappings of the profile with the module-level table; the default
      tables are taken here with the contents they are declared with. *)

From Stdlib Require Import String Ascii List ZArith NArith Bool Lia.
Import ListNotations.
Local Open Scope string_scope.
Local Open Scope list_scope.

(** ** Python objects and built-ins *)

Module Py.

(** The exceptions that the modelled statements can raise. *)
Inductive exn : Type :=
| KeyError | TypeError | IndexError | YAMLError | OSError.

(** The result of evaluating an expression: a value or an exception. *)
Inductive res (A : Type) : Type :=
| Ok (a : A)
| Raise (e : exn).
Arguments Ok {A} a.
Arguments Raise {A} e.

(** What [float(s)] denotes.  The decimal literal is kept as written
    (sign, digits of the mantissa, decimal exponent); the rounding to
    binary64 is not modelled. *)
Inductive pyfloat : Type :=
| FDec (neg : bool) (mant : N) (exp10 : Z)
| FInf (neg : bool)
| FNan.

#[warnings="-register-all"]
Inductive value : Type :=
| VNone
| VBool (b : bool)
| VInt (z : Z)
| VFloat (f : pyfloat)
| VStr (s : string)
| VList (l : list value)
| VDict (d : list (string * value)).

Definition dict : Type := list (string * value).

Definition is_dict (v : value) : bool :=
  match v with VDict _ => true | _ => false end.

(** *** dict primitives *)

Fixpoint dict_get (d : dict) (k : string) : option value :=
  match d with
  | [] => None
  | (k', v) :: d' => if String.eqb k k' then Some v else dict_get d' k
  end.

Definition dict_has (d : dict) (k : string) : bool :=
  match dict_get d k with Some _ => true | None => false end.

(** [d[k] = v]: an existing key keeps its position. *)
Fixpoint dict_set (d : dict) (k : string) (v : value) : dict :=
  match d with
  | [] => [(k, v)]
  | (k', v') :: d' =>
      if String.eqb k k' then (k', v) :: d' else (k', v') :: dict_set d' k v
  end.

(** *** str primitives *)

(** The upper-case letters below 256: [A] to [Z], and 192 to 222 without
    the multiplication sign (215); each has its lower-case letter 32
    places further. *)
Definition is_upper (c : ascii) : bool :=
  let n := nat_of_ascii c in
  ((65 <=? n)%nat && (n <=? 90)%nat)
  || ((192 <=? n)%nat && (n <=? 222)%nat && negb (n =? 215)%nat).

Definition lower_char (c : ascii) : ascii :=
  if is_upper c then ascii_of_nat (nat_of_ascii c + 32) else c.

(** [s.lower()] *)
Fixpoint lower (s : string) : string :=
  match s with
  | EmptyString => EmptyString
  | String c s' => String (lower_char c) (lower s')
  end.

Definition dot : ascii := "."%char.

(** [s.split('.')]: never empty; an empty string gives one empty field. *)
Fixpoint split (s : string) : list string :=
  match s with
  | EmptyString => [EmptyString]
  | String c s' =>
      if Ascii.eqb c dot then EmptyString :: split s'
      else match split s' with
           | h :: t => String c h :: t
           | [] => [String c EmptyString]
           end
  end.

(** [k in s] for two strings: [k] occurs in [s]. *)
Fixpoint occurs (k s : string) : bool :=
  if String.prefix k s then true
  else match s with
       | EmptyString => false
       | String _ s' => occurs k s'
       end.

(** *** The subscript and membership operators *)

(** [k in container], [k] a string. *)
Definition py_contains (k : string) (container : value) : res bool :=
  match container with
  | VDict d => Ok (dict_has d k)
  | VStr s => Ok (occurs k s)
  | VList l =>
      Ok (existsb (fun x => match x with
                            | VStr s => String.eqb s k
                            | _ => false
                            end) l)
  | VNone | VBool _ | VInt _ | VFloat _ => Raise TypeError
  end.

(** [container[k]], [k] a string. *)
Definition py_getitem (container : value) (k : string) : res value :=
  match container with
  | VDict d =>
      match dict_get d k with
      | Some v => Ok v
      | None => Raise KeyError
      end
  | _ => Raise TypeError
  end.

(** [container[k] = v], [k] a string: the new state of [container] and
    the exception raised, if any. *)
Definition py_setitem (container : value) (k : string) (v : value)
  : value * option exn :=
  match container with
  | VDict d => (VDict (dict_set d k v), None)
  | _ => (container, Some TypeError)
  end.

(** *** [int(s)] and [float(s)] on a string

    Both strip surrounding whitespace, take an optional sign and read
    decimal digits in which single underscores may separate digits.
    [None] stands for [ValueError]. *)

(** The characters that [int] and [float] strip: tab to carriage return
    and the space, and the two spaces above 127 (133 and 160), which both
    functions turn into a space before they read the string.  The
    separators 28 to 31 are not among them. *)
Definition is_space (c : ascii) : bool :=
  let n := nat_of_ascii c in
  ((9 <=? n)%nat && (n <=? 13)%nat)
  || (n =? 32)%nat || (n =? 133)%nat || (n =? 160)%nat.

Fixpoint lstrip (l : list ascii) : list ascii :=
  match l with
  | c :: l' => if is_space c then lstrip l' else l
  | [] => []
  end.

Definition strip (l : list ascii) : list ascii :=
  rev (lstrip (rev (lstrip l))).

Definition digit_val (c : ascii) : option N :=
  let n := nat_of_ascii c in
  if ((48 <=? n)%nat && (n <=? 57)%nat)%bool
  then Some (N.of_nat (n - 48)) else None.

Definition underscore : ascii := "_"%char.

(** The digits after the first one: the value read so far and the
    number of digits read so far are carried along. *)
Fixpoint digits_from (acc : N) (cnt : nat) (l : list ascii)
  : option (N * nat) :=
  match l with
  | [] => Some (acc, cnt)
  | c :: l' =>
      match digit_val c with
      | Some d => digits_from (10 * acc + d) (S cnt) l'
      | None =>
          if Ascii.eqb c underscore then
            match l' with
            | c' :: l'' =>
                match digit_val c' with
                | Some d => digits_from (10 * acc + d) (S cnt) l''
                | None => None
                end
            | [] => None
            end
          else None
      end
  end.

(** digitpart ::= digit (["_"] digit)* *)
Definition digitpart (l : list ascii) : option (N * nat) :=
  match l with
  | c :: l' =>
      match digit_val c with
      | Some d => digits_from d 1 l'
      | None => None
      end
  | [] => None
  end.

Definition split_sign (l : list ascii) : bool * list ascii :=
  match l with
  | c :: l' =>
      if Ascii.eqb c "-"%char then (true, l')
      else if Ascii.eqb c "+"%char then (false, l')
      else (false, l)
  | [] => (false, [])
  end.

Definition signed (neg : bool) (n : N) : Z :=
  if neg then (- Z.of_N n)%Z else Z.of_N n.

(** [sys.get_int_max_str_digits()], at its default. *)
Definition int_max_str_digits : N := 4300%N.

(** [int(s)]: a literal with more digits than the limit is a
    [ValueError] too. *)
Definition py_int (s : string) : option Z :=
  let (neg, body) := split_sign (strip (list_ascii_of_string s)) in
  match digitpart body with
  | Some (n, digits) =>
      if (N.of_nat digits <=? int_max_str_digits)%N
      then Some (signed neg n)
      else None
  | None => None
  end.

(** Cut a list at the first character satisfying [p]; the second
    component is what follows that character, when there is one. *)
Fixpoint break_at (p : ascii -> bool) (l : list ascii)
  : list ascii * option (list ascii) :=
  match l with
  | [] => ([], None)
  | c :: l' =>
      if p c then ([], Some l')
      else let (a, b) := break_at p l' in (c :: a, b)
  end.

Definition is_exp_mark (c : ascii) : bool :=
  Ascii.eqb c "e"%char || Ascii.eqb c "E"%char.

Definition is_point (c : ascii) : bool := Ascii.eqb c "."%char.

(** number ::= [digitpart] "." digitpart | digitpart ["."]
    The result is the integer written by all the digits and the number
    of digits after the point. *)
Definition number (l : list ascii) : option (N * nat) :=
  match break_at is_point l with
  | (ip, None) =>
      match digitpart ip with
      | Some (n, _) => Some (n, 0%nat)
      | None => None
      end
  | (ip, Some fp) =>
      match ip, fp with
      | [], [] => None
      | _ :: _, [] =>
          match digitpart ip with
          | Some (n, _) => Some (n, 0%nat)
          | None => None
          end
      | [], _ :: _ => digitpart fp
      | _ :: _, _ :: _ =>
          match digitpart ip, digitpart fp with
          | Some (n, _), Some (m, k) =>
              Some ((n * 10 ^ N.of_nat k + m)%N, k)
          | _, _ => None
          end
      end
  end.

(** exponent ::= ("e" | "E") [sign] digitpart, after the mark. *)
Definition exponent (l : list ascii) : option Z :=
  let (neg, body) := split_sign l in
  match digitpart body with
  | Some (n, _) => Some (signed neg n)
  | None => None
  end.

Definition py_float (s : string) : option pyfloat :=
  let (neg, body) := split_sign (strip (list_ascii_of_string s)) in
  let word := lower (string_of_list_ascii body) in
  if String.eqb word "inf" || String.eqb word "infinity" then Some (FInf neg)
  else if String.eqb word "nan" then Some FNan
  else
    match break_at is_exp_mark body with
    | (m, None) =>
        match number m with
        | Some (n, k) => Some (FDec neg n (- Z.of_nat k))
        | None => None
        end
    | (m, Some e) =>
        match number m, exponent e with
        | Some (n, k), Some x => Some (FDec neg n (x - Z.of_nat k))
        | _, _ => None
        end
    end.

(** Truth value of an object, as [or] tests it. *)
Definition truthy (v : value) : bool :=
  match v with
  | VNone => false
  | VBool b => b
  | VInt z => negb (Z.eqb z 0)
  | VFloat (FDec _ m _) => negb (N.eqb m 0)
  | VFloat _ => true
  | VStr s => negb (String.eqb s "")
  | VList l => match l with [] => false | _ => true end
  | VDict d => match d with [] => false | _ => true end
  end.

End Py.

(** ** shared/constants.py: the default profiles *)

Module Constants.
Import Py.

Definition DEFAULT_CLIENT_CONFIG : dict :=
  [ ("client_id", VStr "pi_client_001");
    ("sensor_pin", VInt 4);
    ("sensor_type", VStr "DHT11");
    ("update_interval", VInt 30);
    ("mqtt", VDict
       [ ("host", VStr "192.168.1.112");
         ("port", VInt 8883);
         ("username", VStr "");
         ("password", VStr "");
         ("use_tls", VBool true);
         ("ca_cert", VStr "/etc/ssl/certs/ca-certificates.crt") ]);
    ("modbus", VDict
       [ ("enabled", VBool false);
         ("port", VInt 5020);
         ("slave_id", VInt 1) ]);
    ("logging", VDict
       [ ("level", VStr "INFO");
         ("max_size", VStr "10MB");
         ("backup_count", VInt 5) ]) ].

Definition DEFAULT_HOST_CONFIG : dict :=
  [ ("mqtt", VDict
       [ ("host", VStr "0.0.0.0");
         ("port", VInt 8883);
         ("websocket_port", VInt 9001);
         ("username", VStr "admin");
         ("password", VStr "secure_password_123");
         ("use_tls", VBool true);
         ("cert_file", VStr "/etc/ssl/certs/mqtt-server.crt");
         ("key_file", VStr "/etc/ssl/private/mqtt-server.key") ]);
    ("database", VDict
       [ ("type", VStr "sqlite");
         ("path", VStr "data/sensors.db");
         ("retention_days", VInt 365) ]);
    ("dashboard", VDict
       [ ("host", VStr "0.0.0.0");
         ("port", VInt 8080);
         ("debug", VBool false);
         ("secret_key", VStr "your-secret-key-here") ]);
    ("logging", VDict
       [ ("level", VStr "INFO");
         ("max_size", VStr "50MB");
         ("backup_count", VInt 10) ]) ].

End Constants.

(** ** shared/config_manager.py *)

Module ConfigManager.
Import Py.

(** *** The world outside the store *)

(** What is found at a file path.  [Document v] is a file whose text
    [yaml.safe_load] parses to [v]; [Unparsable] is a file that exists
    and that [open] or [yaml.safe_load] rejects.  *)
Inductive file_state : Type :=
| Absent
| Unparsable
| Document (v : value).

(** [environ] is the process environment as [os.getenv] reads it in
    [_apply_env_overrides], that is after [load_dotenv] has run;
    [writable] tells whether [open(path, 'w')] succeeds. *)
Record world : Type := World {
  files : string -> file_state;
  environ : string -> option string;
  writable : string -> bool
}.

(** The class of the object, which selects [__init__]. *)
Inductive cls : Type := Base | Client | Host.

(** The attributes of a store. *)
Record manager : Type := Manager {
  class_of : cls;
  config_path : string;
  _config : value
}.

Definition with_config (self : manager) (c : value) : manager :=
  Manager (class_of self) (config_path self) c.

(** *** Value coercion *)

Definition _convert_env_value (value : string) : Py.value :=
  if String.eqb (lower value) "true" || String.eqb (lower value) "false"
  then VBool (String.eqb (lower value) "true")
  else
    match py_int value with
    | Some z => VInt z
    | None =>
        match py_float value with
        | Some f => VFloat f
        | None => VStr value
        end
    end.

(** *** Writing at a path

    The loop shared by [_set_nested_value] and [set]:
    [for key in path[:-1]: if key not in current: current[key] = {};
     current = current[key]], then [current[path[-1]] = value].
    [current] is mutated in place, so the new state of the object that
    [current] names on entry is returned, with the exception if one is
    raised; the empty path raises at [path[-1]]. *)
Fixpoint assign_path (current : value) (path : list string) (v : value)
  {struct path} : value * option exn :=
  match path with
  | [] => (current, Some IndexError)
  | [last] => py_setitem current last v
  | key :: (_ :: _) as rest =>
      match py_contains key current with
      | Raise e => (current, Some e)
      | Ok present =>
          let (current1, e1) :=
            if present then (current, None)
            else py_setitem current key (VDict []) in
          match e1 with
          | Some e => (current1, Some e)
          | None =>
              match py_getitem current1 key with
              | Raise e => (current1, Some e)
              | Ok child =>
                  let (child', e2) := assign_path child rest v in
                  (fst (py_setitem current1 key child'), e2)
              end
          end
      end
  end.

Definition _set_nested_value (config : value) (path : list string)
  (v : value) : value * option exn :=
  assign_path config path v.

(** *** Source overlay *)

Definition env_mappings : list (string * list string) :=
  [ ("MQTT_HOST", ["mqtt"; "host"]);
    ("MQTT_PORT", ["mqtt"; "port"]);
    ("MQTT_USERNAME", ["mqtt"; "username"]);
    ("MQTT_PASSWORD", ["mqtt"; "password"]);
    ("MQTT_USE_TLS", ["mqtt"; "use_tls"]);
    ("SENSOR_PIN", ["sensor_pin"]);
    ("SENSOR_TYPE", ["sensor_type"]);
    ("UPDATE_INTERVAL", ["update_interval"]);
    ("CLIENT_ID", ["client_id"]);
    ("DATABASE_PATH", ["database"; "path"]);
    ("DASHBOARD_PORT", ["dashboard"; "port"]);
    ("LOG_LEVEL", ["logging"; "level"]) ].

(** The loop of [_apply_env_overrides] over the entries of a table. *)
Fixpoint apply_overrides (mappings : list (string * list string))
  (getenv : string -> option string) (config : value)
  : value * option exn :=
  match mappings with
  | [] => (config, None)
  | (env_key, path) :: more =>
      match getenv env_key with
      | None => apply_overrides more getenv config
      | Some s =>
          match _set_nested_value config path (_convert_env_value s) with
          | (config', Some e) => (config', Some e)
          | (config', None) => apply_overrides more getenv config'
          end
      end
  end.

Definition _apply_env_overrides (getenv : string -> option string)
  (config : value) : value * option exn :=
  apply_overrides env_mappings getenv config.

(** [_load_config]: the new state of [self] and the exception that
    propagates, if any.  When the file is rejected [self._config] has
    not been assigned yet. *)
Definition _load_config (self : manager) (w : world)
  : manager * option exn :=
  match files w (config_path self) with
  | Unparsable => (self, Some YAMLError)
  | Absent =>
      let (c, e) := _apply_env_overrides (environ w) (VDict []) in
      (with_config self c, e)
  | Document v =>
      let loaded := if truthy v then v else VDict [] in
      let (c, e) := _apply_env_overrides (environ w) loaded in
      (with_config self c, e)
  end.

(** *** Default profiles *)

(** The loop [for key, value in DEFAULTS.items(): if key not in
    self._config: self._config[key] = value]. *)
Fixpoint fill_defaults (defaults : dict) (config : value)
  : value * option exn :=
  match defaults with
  | [] => (config, None)
  | (key, v) :: more =>
      match py_contains key config with
      | Raise e => (config, Some e)
      | Ok true => fill_defaults more config
      | Ok false =>
          match py_setitem config key v with
          | (config', Some e) => (config', Some e)
          | (config', None) => fill_defaults more config'
          end
      end
  end.

Definition defaults_of (c : cls) : dict :=
  match c with
  | Base => []
  | Client => Constants.DEFAULT_CLIENT_CONFIG
  | Host => Constants.DEFAULT_HOST_CONFIG
  end.

(** [_apply_defaults] of [ClientConfigManager] and [HostConfigManager];
    the base class has no such method and [Base] is never passed. *)
Definition _apply_defaults (self : manager) : manager * option exn :=
  let (c, e) := fill_defaults (defaults_of (class_of self)) (_config self) in
  (with_config self c, e).

(** [__init__]: [ConfigManager.__init__] sets the attributes and calls
    [_load_config]; the two subclasses then call [_apply_defaults].  An
    exception leaves no object behind. *)
Definition __init__ (c : cls) (path : string) (w : world) : res manager :=
  match _load_config (Manager c path (VDict [])) w with
  | (_, Some e) => Raise e
  | (self, None) =>
      match c with
      | Base => Ok self
      | Client | Host =>
          match _apply_defaults self with
          | (_, Some e) => Raise e
          | (self', None) => Ok self'
          end
      end
  end.

(** [reload], inherited unchanged by both subclasses. *)
Definition reload (self : manager) (w : world) : manager * option exn :=
  _load_config self w.

(** *** Reading and writing by dot-path *)

(** The loop [for k in keys: current = current[k]]. *)
Fixpoint walk (current : value) (keys : list string) : res value :=
  match keys with
  | [] => Ok current
  | k :: keys' =>
      match py_getitem current k with
      | Raise e => Raise e
      | Ok next => walk next keys'
      end
  end.

(** [get]: [except (KeyError, TypeError): return default]; any other
    exception would propagate. *)
Definition get (self : manager) (key : string) (default : value)
  : res value :=
  match walk (_config self) (split key) with
  | Ok v => Ok v
  | Raise KeyError | Raise TypeError => Ok default
  | Raise e => Raise e
  end.

Definition set (self : manager) (key : string) (v : value)
  : manager * option exn :=
  let (c, e) := assign_path (_config self) (split key) v in
  (with_config self c, e).

Definition get_section (self : manager) (section : string) : res value :=
  get self section (VDict []).

(** *** Schema validation *)

(** The classes a schema names as the expected type of a leaf. *)
Inductive pytype : Type :=
| TBool | TInt | TFloat | TStr | TList | TDict | TNoneType.

(** A schema maps each key to a class or to a nested schema. *)
#[warnings="-register-all"]
Inductive expected : Type :=
| EType (t : pytype)
| ESchema (s : list (string * expected)).

Definition schema : Type := list (string * expected).

(** [isinstance(v, t)]; [bool] is a subclass of [int]. *)
Definition isinstance (v : value) (t : pytype) : bool :=
  match v, t with
  | VNone, TNoneType => true
  | VBool _, TBool => true
  | VBool _, TInt => true
  | VInt _, TInt => true
  | VFloat _, TFloat => true
  | VStr _, TStr => true
  | VList _, TList => true
  | VDict _, TDict => true
  | _, _ => false
  end.

(** What [logger.error] is called with. *)
Inductive log_entry : Type :=
| MissingKey (key : string)
| ShouldBeDict (key : string)
| ShouldBeType (key : string) (t : pytype)
| ValidationFailed (e : exn).

(** The [for] loop of [_validate_recursive] over the items of a schema,
    given the check of one item against its expected type. *)
Definition validate_loop
  (check : string -> expected -> value -> list log_entry * res bool)
  (config : value) : schema -> list log_entry * res bool :=
  fix loop (items : schema) : list log_entry * res bool :=
    match items with
    | [] => ([], Ok true)
    | (key, expected_type) :: more =>
        match py_contains key config with
        | Raise e => ([], Raise e)
        | Ok false => ([MissingKey key], Ok false)
        | Ok true =>
            match py_getitem config key with
            | Raise e => ([], Raise e)
            | Ok item =>
                match check key expected_type item with
                | (log, Ok true) =>
                    let (log', r) := loop more in (log ++ log', r)
                | (log, r) => (log, r)
                end
            end
        end
    end.

(** The body of the loop after [key not in config]: the two branches on
    [isinstance(expected_type, dict)]. *)
Fixpoint check_item (key : string) (expected_type : expected)
  (item : value) {struct expected_type} : list log_entry * res bool :=
  match expected_type with
  | ESchema sub =>
      if is_dict item then validate_loop check_item item sub
      else ([ShouldBeDict key], Ok false)
  | EType t =>
      if isinstance item t then ([], Ok true)
      else ([ShouldBeType key t], Ok false)
  end.

Definition _validate_recursive (config : value) (s : schema)
  : list log_entry * res bool :=
  validate_loop check_item config s.

(** [validate_config]: [except Exception] logs and returns [False]. *)
Definition validate_config (self : manager) (s : schema)
  : list log_entry * bool :=
  match _validate_recursive (_config self) s with
  | (log, Ok b) => (log, b)
  | (log, Raise e) => (log ++ [ValidationFailed e], false)
  end.

(** *** Persistence *)

(** [yaml.dump] writes the items of every mapping sorted by key, so the
    document read back lists them in that order. *)
Fixpoint insert_item (x : string * value) (d : dict) : dict :=
  match d with
  | [] => [x]
  | y :: d' =>
      if String.leb (fst x) (fst y) then x :: d
      else y :: insert_item x d'
  end.

Definition sort_items (d : dict) : dict := fold_right insert_item [] d.

Fixpoint yaml_order (v : value) : value :=
  match v with
  | VList l => VList (map yaml_order l)
  | VDict d =>
      VDict (sort_items (map (fun kv => (fst kv, yaml_order (snd kv))) d))
  | _ => v
  end.

Definition write_file (w : world) (path : string) (st : file_state)
  : world :=
  World (fun p => if String.eqb p path then st else files w p)
        (environ w) (writable w).

(** [save_path = Path(path) if path else self.config_path]: [path] is
    tested for truth, so an empty string also selects [self.config_path]. *)
Definition save_target (self : manager) (path : option string) : string :=
  match path with
  | Some p => if String.eqb p "" then config_path self else p
  | None => config_path self
  end.

(** [save_config]: the new world and the exception raised, if any. *)
Definition save_config (self : manager) (path : option string) (w : world)
  : world * option exn :=
  let save_path := save_target self path in
  if writable w save_path
  then (write_file w save_path (Document (yaml_order (_config self))), None)
  else (w, Some OSError).

End ConfigManager.

(** ** The vocabulary of the specification

    What follows is written from the words of the specification rather
    than from the code; the theorems below compare the two. *)

Module Spec.
Import Py ConfigManager.

(** Path addressing, [read]: walk the tree segment by segment; a segment
    that is absent, or that is looked up in something that is not a
    mapping, is not found. *)
Fixpoint lookup_path (tree : value) (path : list string) : option value :=
  match path with
  | [] => Some tree
  | k :: rest =>
      match tree with
      | VDict d =>
          match dict_get d k with
          | Some v => lookup_path v rest
          | None => None
          end
      | _ => None
      end
  end.

(** Two paths part ways: at some position, before either ends, their
    segments differ. *)
Fixpoint diverge (p q : list string) : bool :=
  match p, q with
  | a :: p', b :: q' => if String.eqb a b then diverge p' q' else true
  | _, _ => false
  end.

(** Every segment of the path before the last is absent from the tree or
    holds a mapping (and the tree itself is a mapping). *)
Fixpoint intermediates_ok (tree : value) (path : list string) : bool :=
  match tree with
  | VDict d =>
      match path with
      | [] | [_] => true
      | k :: (_ :: _) as rest =>
          match dict_get d k with
          | None => true
          | Some child => intermediates_ok child rest
          end
      end
  | _ => false
  end.

(** Some segment of the path before the last exists in the tree and
    holds a value that is not a mapping. *)
Fixpoint meets_non_mapping (tree : value) (path : list string) : bool :=
  match path with
  | [] | [_] => false
  | k :: (_ :: _) as rest =>
      match tree with
      | VDict d =>
          match dict_get d k with
          | Some child => negb (is_dict child) || meets_non_mapping child rest
          | None => false
          end
      | _ => false
      end
  end.

(** Case-insensitive exact match of two strings. *)
Definition same_letter (a b : ascii) : bool :=
  Ascii.eqb a b
  || (is_upper a && Ascii.eqb (lower_char a) b)
  || (is_upper b && Ascii.eqb a (lower_char b)).

Fixpoint ci_match (s t : string) : bool :=
  match s, t with
  | EmptyString, EmptyString => true
  | String a s', String b t' => same_letter a b && ci_match s' t'
  | _, _ => false
  end.

(** Value coercion, by the fixed precedence (a) to (d). *)
Inductive coerced (s : string) : value -> Prop :=
| coerced_true : ci_match s "true" = true -> coerced s (VBool true)
| coerced_false : ci_match s "false" = true -> coerced s (VBool false)
| coerced_int z :
    ci_match s "true" = false -> ci_match s "false" = false ->
    py_int s = Some z -> coerced s (VInt z)
| coerced_float f :
    ci_match s "true" = false -> ci_match s "false" = false ->
    py_int s = None -> py_float s = Some f -> coerced s (VFloat f)
| coerced_str :
    ci_match s "true" = false -> ci_match s "false" = false ->
    py_int s = None -> py_float s = None -> coerced s (VStr s).

(** A character occurs in a string. *)
Fixpoint has_char (c : ascii) (s : string) : bool :=
  match s with
  | EmptyString => false
  | String a s' => Ascii.eqb a c || has_char c s'
  end.

(** The kind of a value, among the kinds of the data model. *)
Definition kind_of (v : value) : pytype :=
  match v with
  | VNone => TNoneType
  | VBool _ => TBool
  | VInt _ => TInt
  | VFloat _ => TFloat
  | VStr _ => TStr
  | VList _ => TList
  | VDict _ => TDict
  end.

Definition pytype_eqb (a b : pytype) : bool :=
  match a, b with
  | TBool, TBool | TInt, TInt | TFloat, TFloat | TStr, TStr
  | TList, TList | TDict, TDict | TNoneType, TNoneType => true
  | _, _ => false
  end.

(** A leaf has the expected primitive type when its kind is the tag. *)
Definition same_kind (v : value) (t : pytype) : bool :=
  pytype_eqb (kind_of v) t.

(** The same, except that a boolean also passes for an integer. *)
Definition kind_or_bool_as_int (v : value) (t : pytype) : bool :=
  same_kind v t
  || (pytype_eqb (kind_of v) TBool && pytype_eqb t TInt).

(** All the violations of a schema by a tree, in schema-declaration
    order, for a given test of leaves: a missing key, a value that
    should be a mapping and is not, a leaf of the wrong type. *)
Fixpoint violations_at (accepts : value -> pytype -> bool)
  (key : string) (e : expected) (item : option value)
  {struct e} : list log_entry :=
  match item with
  | None => [MissingKey key]
  | Some v =>
      match e with
      | EType t => if accepts v t then [] else [ShouldBeType key t]
      | ESchema sub =>
          match v with
          | VDict d =>
              flat_map (fun ke => violations_at accepts (fst ke) (snd ke)
                                    (dict_get d (fst ke))) sub
          | _ => [ShouldBeDict key]
          end
      end
  end.

Definition violations (accepts : value -> pytype -> bool)
  (d : dict) (s : schema) : list log_entry :=
  flat_map (fun ke => violations_at accepts (fst ke) (snd ke)
                        (dict_get d (fst ke))) s.

(** Every key of the schema is present in the tree with the expected
    shape. *)
Fixpoint conforms_at (accepts : value -> pytype -> bool)
  (e : expected) (item : option value) {struct e} : bool :=
  match item with
  | None => false
  | Some v =>
      match e with
      | EType t => accepts v t
      | ESchema sub =>
          match v with
          | VDict d =>
              forallb (fun ke => conforms_at accepts (snd ke)
                                   (dict_get d (fst ke))) sub
          | _ => false
          end
      end
  end.

Definition conforms (accepts : value -> pytype -> bool)
  (d : dict) (s : schema) : bool :=
  forallb (fun ke => conforms_at accepts (snd ke) (dict_get d (fst ke))) s.

(** No violation was found. *)
Definition none_found (l : list log_entry) : bool :=
  match l with [] => true | _ :: _ => false end.

(** What the check of one item returns: the first of its violations, if
    any, and whether there is none. *)
Definition item_checked (e : expected) : Prop :=
  forall key item,
    check_item key e item
    = (firstn 1 (violations_at kind_or_bool_as_int key e (Some item)),
       Ok (conforms_at kind_or_bool_as_int e (Some item)))
    /\ conforms_at kind_or_bool_as_int e (Some item)
       = none_found (violations_at kind_or_bool_as_int key e (Some item)).

(** A string without upper-case letters. *)
Fixpoint no_upper (t : string) : bool :=
  match t with
  | EmptyString => true
  | String c t' => negb (is_upper c) && no_upper t'
  end.

(** A character that no boolean, integer or floating-point literal
    contains: not white space, not a digit, not one of [_ + - .], and not
    a letter of [true], [false], [inf], [infinity], [nan] or the exponent
    mark, in either case.  The comma and the apostrophe are such
    characters. *)
Definition outside_literals (c : ascii) : bool :=
  negb (is_space c)
  && match digit_val c with Some _ => false | None => true end
  && negb (has_char c "_+-.")
  && negb (has_char (lower_char c) "aefilnrstuy").

(** A scalar: neither a mapping nor a sequence. *)
Definition is_scalar (v : value) : bool :=
  match v with
  | VList _ | VDict _ => false
  | _ => true
  end.

(** The environment sets no variable of the override table. *)
Definition no_override_set (getenv : string -> option string) : bool :=
  forallb (fun m => match getenv (fst m) with None => true | Some _ => false end)
          env_mappings.

(** A path is clear of the overrides in force when it parts ways with
    the target of every override variable that is set. *)
Definition clear_of_overrides (getenv : string -> option string)
  (q : list string) : bool :=
  forallb (fun m => match getenv (fst m) with
                    | None => true
                    | Some _ => diverge (snd m) q
                    end) env_mappings.

(** The targets of a table part ways two by two, and none is empty. *)
Fixpoint targets_apart (mappings : list (string * list string)) : bool :=
  match mappings with
  | [] => true
  | (_, p) :: more =>
      match p with [] => false | _ :: _ => true end
      && forallb (fun m => diverge p (snd m)) more
      && targets_apart more
  end.

(** A world for examples: given files, given environment, every path
    writable. *)
Definition lookup_env (l : list (string * string)) (k : string)
  : option string :=
  match find (fun kv => String.eqb (fst kv) k) l with
  | Some kv => Some (snd kv)
  | None => None
  end.

Definition lookup_file (l : list (string * file_state)) (p : string)
  : file_state :=
  match find (fun kv => String.eqb (fst kv) p) l with
  | Some kv => snd kv
  | None => Absent
  end.

Definition mk_world (fs : list (string * file_state))
  (env : list (string * string)) : world :=
  World (lookup_file fs) (lookup_env env) (fun _ => true).

End Spec.

(** ** shared/logger.py *)

Module Logger.
Import Py.

(** *** [IoTLogger._parse_size] *)

Definition is_lower (c : ascii) : bool :=
  let n := nat_of_ascii c in (97 <=? n)%nat && (n <=? 122)%nat.

Definition upper_char (c : ascii) : ascii :=
  if is_lower c then ascii_of_nat (nat_of_ascii c - 32) else c.

(** [s.upper()], for a string of characters below 128. *)
Fixpoint upper (s : string) : string :=
  match s with
  | EmptyString => EmptyString
  | String c s' => String (upper_char c) (upper s')
  end.

(** [s.endswith(suffix)] *)
Fixpoint endswith (s suffix : string) : bool :=
  if String.eqb s suffix then true
  else match s with
       | EmptyString => false
       | String _ s' => endswith s' suffix
       end.

(** [s[:-2]] *)
Definition drop_last2 (s : string) : string :=
  substring 0 (String.length s - 2) s.

(** [None] stands for the [ValueError] of [int]. *)
Definition _parse_size (size_str : string) : option Z :=
  let size_str := upper size_str in
  if endswith size_str "KB" then
    match py_int (drop_last2 size_str) with
    | Some n => Some (n * 1024)%Z
    | None => None
    end
  else if endswith size_str "MB" then
    match py_int (drop_last2 size_str) with
    | Some n => Some (n * 1024 * 1024)%Z
    | None => None
    end
  else if endswith size_str "GB" then
    match py_int (drop_last2 size_str) with
    | Some n => Some (n * 1024 * 1024 * 1024)%Z
    | None => None
    end
  else py_int size_str.

(** *** Log records

    The attributes of a [LogRecord] that the formatters read, and
    [others]: the items of [record.__dict__] besides the twenty attributes
    that [LogRecord.__init__] sets, in order, that is the [extra] fields
    of the call and what earlier formatters stored.  The twenty are all
    named in the tuple that [JSONFormatter.format] skips. *)
Record log_record : Type := LogRecord {
  name : string;
  levelname : string;
  module : string;
  funcName : string;
  lineno : Z;
  created : value;
  exc_info : value;
  others : dict
}.

(** *** [ColoredFormatter] *)

Definition esc : ascii := ascii_of_nat 27.

Definition COLORS : list (string * string) :=
  [ ("DEBUG", String esc "[36m");
    ("INFO", String esc "[32m");
    ("WARNING", String esc "[33m");
    ("ERROR", String esc "[31m");
    ("CRITICAL", String esc "[35m");
    ("RESET", String esc "[0m") ].

Fixpoint table_get (t : list (string * string)) (k : string)
  : option string :=
  match t with
  | [] => None
  | (k', v) :: t' => if String.eqb k k' then Some v else table_get t' k
  end.

(** [self.COLORS['RESET']] *)
Definition COLORS_RESET : string :=
  match table_get COLORS "RESET" with Some c => c | None => "" end.

(** [self.COLORS.get(levelname, self.COLORS['RESET'])] *)
Definition color_of (levelname : string) : string :=
  match table_get COLORS levelname with
  | Some c => c
  | None => COLORS_RESET
  end.

Definition set_levelname (record : log_record) (l : string) : log_record :=
  LogRecord (name record) l (module record) (funcName record)
            (lineno record) (created record) (exc_info record)
            (others record).

(** [ColoredFormatter.format]: the record as the call leaves it and the
    text returned; [base_format] is [logging.Formatter.format]. *)
Definition ColoredFormatter_format (base_format : log_record -> string)
  (record : log_record) : log_record * string :=
  let color := color_of (levelname record) in
  let record' :=
    set_levelname record (color ++ levelname record ++ COLORS_RESET) in
  (record', base_format record').

(** *** [JSONFormatter] *)

Definition skipped : list string :=
  [ "name"; "msg"; "args"; "levelname"; "levelno"; "pathname";
    "filename"; "module"; "exc_info"; "exc_text"; "stack_info";
    "lineno"; "funcName"; "created"; "msecs"; "relativeCreated";
    "thread"; "threadName"; "processName"; "process"; "getMessage" ].

Definition is_skipped (key : string) : bool :=
  existsb (String.eqb key) skipped.

Section JSON.

(** [datetime.fromtimestamp(created).isoformat()], [record.getMessage()]
    and [self.formatException(exc_info)]. *)
Variable isoformat : value -> string.
Variable getMessage : log_record -> string.
Variable formatException : value -> string.

(** [log_entry] before the loop over the extra fields. *)
Definition standard_entry (record : log_record) : dict :=
  let log_entry :=
    [ ("timestamp", VStr (isoformat (created record)));
      ("level", VStr (levelname record));
      ("logger", VStr (name record));
      ("message", VStr (getMessage record));
      ("module", VStr (module record));
      ("function", VStr (funcName record));
      ("line", VInt (lineno record)) ] in
  if truthy (exc_info record)
  then dict_set log_entry "exception"
         (VStr (formatException (exc_info record)))
  else log_entry.

(** [log_entry] as it is handed to [json.dumps]. *)
Definition JSONFormatter_entry (record : log_record) : dict :=
  fold_left
    (fun log_entry kv =>
       if is_skipped (fst kv) then log_entry
       else dict_set log_entry (fst kv) (snd kv))
    (others record) (standard_entry record).

(** [JSONFormatter.format], given [json.dumps]. *)
Definition JSONFormatter_format (json_dumps : dict -> string)
  (record : log_record) : string :=
  json_dumps (JSONFormatter_entry record).

End JSON.

(** *** [IoTLogger]: structured events *)

(** [data.update(kwargs)] *)
Definition update (data kwargs : dict) : dict :=
  fold_left (fun d kv => dict_set d (fst kv) (snd kv)) kwargs data.

(** The call [self.info(message, **data)]: a key of [data] that names a
    parameter of [info] is a second value for it.  The result is what
    [info] passes on: [self.logger.info(message, extra=kwargs)]. *)
Definition info (message : string) (kwargs : dict) : res (string * dict) :=
  if dict_has kwargs "self" || dict_has kwargs "message"
  then Raise TypeError
  else Ok (message, kwargs).

(** The two characters that stand before [C] in the message of
    [sensor_reading], as the source file has them. *)
Definition degree : string :=
  String (ascii_of_nat 194) (String (ascii_of_nat 176) EmptyString).

(** [sensor_reading]; [fmt] is the text an f-string gives a value. *)
Definition sensor_reading (fmt : value -> string)
  (sensor_id temperature humidity : value) (kwargs : dict)
  : res (string * dict) :=
  let data :=
    [ ("sensor_id", sensor_id);
      ("temperature", temperature);
      ("type", VStr "sensor_reading") ] in
  let data :=
    match humidity with
    | VNone => data
    | _ => dict_set data "humidity" humidity
    end in
  let data := update data kwargs in
  info ("Sensor reading: T=" ++ fmt temperature ++ degree ++ "C"
        ++ (if truthy humidity then ", H=" ++ fmt humidity ++ "%" else ""))
       data.

Definition mqtt_event (event_type topic : string) (kwargs : dict)
  : res (string * dict) :=
  let data :=
    [ ("event_type", VStr event_type);
      ("topic", VStr topic);
      ("type", VStr "mqtt_event") ] in
  let data := update data kwargs in
  info ("MQTT " ++ event_type ++ ": " ++ topic) data.

Definition system_event (event_type component : string) (kwargs : dict)
  : res (string * dict) :=
  let data :=
    [ ("event_type", VStr event_type);
      ("component", VStr component);
      ("type", VStr "system_event") ] in
  let data := update data kwargs in
  info ("System " ++ event_type ++ ": " ++ component) data.

End Logger.

(** ** Further vocabulary *)

Module Notions.
Import Py ConfigManager Spec.

(** A string made of decimal digits only. *)
Fixpoint all_digits (s : string) : bool :=
  match s with
  | EmptyString => true
  | String c s' =>
      match digit_val c with Some _ => all_digits s' | None => false end
  end.

(** The number that a string of decimal digits writes, read after [acc]. *)
Fixpoint decimal_from (acc : N) (s : string) : N :=
  match s with
  | EmptyString => acc
  | String c s' =>
      match digit_val c with
      | Some d => decimal_from (10 * acc + d) s'
      | None => acc
      end
  end.

Definition decimal_value (s : string) : N :=
  match s with
  | EmptyString => 0%N
  | String c s' =>
      match digit_val c with
      | Some d => decimal_from d s'
      | None => 0%N
      end
  end.

(** A string of characters below 128. *)
Fixpoint is_ascii (s : string) : bool :=
  match s with
  | EmptyString => true
  | String c s' => (nat_of_ascii c <? 128)%nat && is_ascii s'
  end.

(** Two environments give the variables of the override table the same
    values. *)
Definition same_overrides (env1 env2 : string -> option string) : Prop :=
  forall m, In m env_mappings -> env1 (fst m) = env2 (fst m).

(** A tree into which every override can be written: a mapping in which
    the parent of every target of the table is absent or a mapping. *)
Definition well_shaped (tree : value) : bool :=
  is_dict tree
  && forallb (fun m => intermediates_ok tree (snd m)) env_mappings.

(** The factor of a unit of size, written in either case. *)
Definition unit_factor (u : string) : option Z :=
  let u := Logger.upper u in
  if String.eqb u "KB" then Some 1024%Z
  else if String.eqb u "MB" then Some (1024 * 1024)%Z
  else if String.eqb u "GB" then Some (1024 * 1024 * 1024)%Z
  else None.

(** What a size string denotes: an integer literal counts bytes; an
    integer literal followed by a unit counts that many units. *)
Inductive size_denotes (s : string) (z : Z) : Prop :=
| size_plain : py_int s = Some z -> size_denotes s z
| size_unit (d u : string) (n f : Z) :
    s = (d ++ u)%string -> unit_factor u = Some f ->
    py_int d = Some n -> z = (n * f)%Z -> size_denotes s z.

End Notions.

(** ** Properties *)

Import Py ConfigManager Spec.

(** *** Dictionaries and strings *)

Section DictFacts.

Variables (d : dict) (k : string).

Lemma dict_get_set_same (v : value) : dict_get (dict_set d k v) k = Some v.
Proof.
  induction d as [|[k' v'] d' IH]; simpl.
  - now rewrite String.eqb_refl.
  - destruct (String.eqb k k') eqn:E; simpl; rewrite E; auto.
Qed.

Lemma dict_get_set_other (k' : string) (v : value) :
  k <> k' -> dict_get (dict_set d k v) k' = dict_get d k'.
Proof.
  intros Hne. induction d as [|[k0 v0] d' IH]; simpl.
  - destruct (String.eqb k' k) eqn:E; auto.
    apply String.eqb_eq in E. congruence.
  - destruct (String.eqb k k0) eqn:E; simpl.
    + apply String.eqb_eq in E. subst k0.
      destruct (String.eqb k' k) eqn:E'; auto.
      apply String.eqb_eq in E'. congruence.
    + now rewrite IH.
Qed.

Lemma dict_set_get_id (v : value) :
  dict_get d k = Some v -> dict_set d k v = d.
Proof.
  induction d as [|[k0 v0] d' IH]; simpl; [discriminate|].
  destruct (String.eqb k k0) eqn:E.
  - intros [= ->]. reflexivity.
  - intros H. now rewrite IH.
Qed.

Lemma dict_has_get : dict_has d k = true <-> exists v, dict_get d k = Some v.
Proof.
  unfold dict_has. destruct (dict_get d k); split; eauto; try discriminate.
  intros [v [=]].
Qed.

End DictFacts.

Lemma split_nonempty (s : string) : split s <> [].
Proof.
  destruct s as [|c s']; simpl; [discriminate|].
  destruct (Ascii.eqb c dot); [discriminate|].
  destruct (split s'); discriminate.
Qed.

Lemma with_config_same (self : manager) : with_config self (_config self) = self.
Proof. now destruct self. Qed.

(** *** Reading by path *)

(** The loop of [get] finds exactly what path addressing finds, and
    raises nothing but [KeyError] and [TypeError] otherwise. *)
Lemma walk_lookup (keys : list string) : forall current,
  match lookup_path current keys with
  | Some v => walk current keys = Ok v
  | None => walk current keys = Raise KeyError
            \/ walk current keys = Raise TypeError
  end.
Proof.
  induction keys as [|k keys IH]; intros current; simpl; [reflexivity|].
  destruct current; simpl; auto.
  destruct (dict_get d k) as [v|]; auto.
  apply IH.
Qed.

Lemma get_lookup (self : manager) (key : string) (default : value) :
  get self key default =
  Ok (match lookup_path (_config self) (split key) with
      | Some v => v
      | None => default
      end).
Proof.
  unfold get.
  pose proof (walk_lookup (split key) (_config self)) as H.
  destruct (lookup_path (_config self) (split key)).
  - now rewrite H.
  - destruct H as [-> | ->]; reflexivity.
Qed.

(** C6.  [get(path, default)] returns normally for every tree, every path
    string and every default: its result is the value that path
    addressing finds, and the supplied default whenever path addressing
    finds nothing, which covers a path that does not exist, a path through
    a value that is not a mapping, a tree that is not a mapping, and the
    empty string when the tree has no empty key. *)
Theorem get_never_raises (self : manager) (key : string) (default : value) :
  (exists v, get self key default = Ok v)
  /\ (lookup_path (_config self) (split key) = None ->
      get self key default = Ok default)
  /\ (forall v, lookup_path (_config self) (split key) = Some v ->
      get self key default = Ok v)
  /\ (dict_has (match _config self with VDict d => d | _ => [] end) "" = false ->
      get self "" default = Ok default).
Proof.
  repeat split.
  - rewrite get_lookup. eauto.
  - intros H. now rewrite get_lookup, H.
  - intros v H. now rewrite get_lookup, H.
  - intros H. rewrite get_lookup. simpl.
    destruct (_config self); auto.
    unfold dict_has in H. destruct (dict_get d ""); [discriminate | reflexivity].
Qed.

Lemma get_never_raises_witness :
  get (Manager Base "c.yaml" (VDict [("mqtt", VStr "broker")]))
      "mqtt.host.name" (VInt 7) = Ok (VInt 7).
Proof.
  apply (get_never_raises
           (Manager Base "c.yaml" (VDict [("mqtt", VStr "broker")]))
           "mqtt.host.name" (VInt 7)).
  reflexivity.
Defined.


(** *** Writing by path *)

(** One turn of the loop of [assign_path]. *)
Lemma assign_path_step (current : value) (key k2 : string)
  (rest : list string) (v : value) :
  assign_path current (key :: k2 :: rest) v =
  match py_contains key current with
  | Raise e => (current, Some e)
  | Ok present =>
      let (current1, e1) :=
        if present then (current, None)
        else py_setitem current key (VDict []) in
      match e1 with
      | Some e => (current1, Some e)
      | None =>
          match py_getitem current1 key with
          | Raise e => (current1, Some e)
          | Ok child =>
              let (child', e2) := assign_path child (k2 :: rest) v in
              (fst (py_setitem current1 key child'), e2)
          end
      end
  end.
Proof. reflexivity. Qed.

Lemma intermediates_ok_step (d : dict) (k k2 : string) (rest : list string) :
  intermediates_ok (VDict d) (k :: k2 :: rest) =
  match dict_get d k with
  | None => true
  | Some child => intermediates_ok child (k2 :: rest)
  end.
Proof. reflexivity. Qed.

Lemma meets_non_mapping_step (d : dict) (k k2 : string) (rest : list string) :
  meets_non_mapping (VDict d) (k :: k2 :: rest) =
  match dict_get d k with
  | Some child => negb (is_dict child) || meets_non_mapping child (k2 :: rest)
  | None => false
  end.
Proof. reflexivity. Qed.

Lemma intermediates_ok_empty (path : list string) :
  intermediates_ok (VDict []) path = true.
Proof. destruct path as [|k [|k' rest]]; reflexivity. Qed.

(** A write whose intermediate segments are absent or mappings succeeds,
    and the loop of [get] then finds the value written. *)
Lemma assign_path_then_walk (v : value) (path : list string) :
  forall current,
    path <> [] ->
    intermediates_ok current path = true ->
    exists current',
      assign_path current path v = (current', None)
      /\ walk current' path = Ok v.
Proof.
  induction path as [|k rest IH]; intros current Hne Hok; [congruence|].
  destruct current; try discriminate.
  destruct rest as [|k2 rest2].
  - cbn [assign_path py_setitem]. eexists; split; [reflexivity|].
    cbn [walk py_getitem]. now rewrite dict_get_set_same.
  - rewrite intermediates_ok_step in Hok.
    rewrite assign_path_step. cbn [py_contains]. unfold dict_has.
    destruct (dict_get d k) as [child|] eqn:Hget.
    + destruct (IH child ltac:(discriminate) Hok) as (child' & Ha & Hw).
      cbn [py_getitem]. rewrite Hget, Ha. cbn [py_setitem fst].
      eexists; split; [reflexivity|].
      cbn [walk py_getitem] in *. now rewrite dict_get_set_same.
    + cbn [py_setitem py_getitem]. rewrite dict_get_set_same.
      destruct (IH (VDict []) ltac:(discriminate)
                  (intermediates_ok_empty _)) as (child' & Ha & Hw).
      rewrite Ha. cbn [fst].
      eexists; split; [reflexivity|].
      cbn [walk py_getitem] in *. now rewrite dict_get_set_same.
Qed.
(** C9.  When every segment of the path before the last is absent from
    the tree or holds a mapping, [set(path, v)] returns normally and a
    following [get(path)] returns exactly [v], whatever [v] is and
    whatever default is passed.  [set] takes and returns the store only:
    it has no access to the files of the world and runs no validation. *)
Theorem set_then_get (self : manager) (key : string) (v default : value) :
  intermediates_ok (_config self) (split key) = true ->
  exists self',
    set self key v = (self', None)
    /\ get self' key default = Ok v
    /\ class_of self' = class_of self
    /\ config_path self' = config_path self.
Proof.
  intros Hok.
  destruct (assign_path_then_walk v (split key) (_config self)
              (split_nonempty key) Hok) as (c & Ha & Hw).
  exists (with_config self c). unfold set, get. rewrite Ha.
  repeat split. cbn [_config with_config]. now rewrite Hw.
Qed.

Lemma set_then_get_witness :
  exists self',
    set (Manager Base "c.yaml" (VDict [("mqtt", VDict [("port", VInt 1883)])]))
        "dashboard.port" (VInt 9090) = (self', None)
    /\ get self' "dashboard.port" VNone = Ok (VInt 9090)
    /\ class_of self' = Base
    /\ config_path self' = "c.yaml".
Proof.
  apply (set_then_get
           (Manager Base "c.yaml" (VDict [("mqtt", VDict [("port", VInt 1883)])]))
           "dashboard.port" (VInt 9090) VNone).
  reflexivity.
Defined.

(** A write into a value that is not a mapping raises [TypeError] and
    changes nothing, at the last segment as at an earlier one. *)
Lemma assign_path_non_mapping (v : value) (path : list string) (current : value) :
  path <> [] ->
  is_dict current = false ->
  assign_path current path v = (current, Some TypeError).
Proof.
  intros Hne Hnd. destruct path as [|k [|k2 rest]]; [congruence| |].
  - destruct current; try discriminate; reflexivity.
  - rewrite assign_path_step.
    destruct current; try discriminate; try reflexivity;
      cbn [py_contains];
      match goal with
      | |- context [if ?b then _ else _] => destruct b; reflexivity
      end.
Qed.

Lemma assign_path_blocked (v : value) (path : list string) :
  forall current,
    meets_non_mapping current path = true ->
    assign_path current path v = (current, Some TypeError).
Proof.
  induction path as [|k rest IH]; intros current Hm; [discriminate|].
  destruct rest as [|k2 rest2]; [discriminate|].
  destruct current; try discriminate.
  rewrite meets_non_mapping_step in Hm.
  destruct (dict_get d k) as [child|] eqn:Hget; [|discriminate].
  rewrite assign_path_step.
  cbn [py_contains]. unfold dict_has. rewrite Hget.
  cbn [py_getitem]. rewrite Hget.
  assert (Hc : assign_path child (k2 :: rest2) v = (child, Some TypeError)).
  { destruct (is_dict child) eqn:Hd.
    - apply IH. now rewrite orb_false_l in Hm.
    - apply assign_path_non_mapping; [discriminate | assumption]. }
  rewrite Hc. cbn [py_setitem fst].
  now rewrite (dict_set_get_id _ _ _ Hget).
Qed.

(** C10.  When a segment of the path before the last exists and holds a
    value that is not a mapping, [set(path, value)] raises [TypeError] and
    the store is exactly what it was: nothing was created or assigned
    before the exception. *)
Theorem set_rejects_non_mapping (self : manager) (key : string) (v : value) :
  meets_non_mapping (_config self) (split key) = true ->
  set self key v = (self, Some TypeError).
Proof.
  intros Hm. unfold set.
  rewrite (assign_path_blocked v _ _ Hm).
  now rewrite with_config_same.
Qed.

Lemma set_rejects_non_mapping_witness :
  set (Manager Base "c.yaml" (VDict [("mqtt", VDict [("host", VStr "broker")])]))
      "mqtt.host.sub" (VInt 1)
  = (Manager Base "c.yaml" (VDict [("mqtt", VDict [("host", VStr "broker")])]),
     Some TypeError).
Proof.
  apply (set_rejects_non_mapping
           (Manager Base "c.yaml"
              (VDict [("mqtt", VDict [("host", VStr "broker")])]))
           "mqtt.host.sub" (VInt 1)).
  reflexivity.
Defined.


(** *** Writes leave the rest of the tree alone *)

Lemma dict_set_twice (d : dict) (k : string) (x y : value) :
  dict_set (dict_set d k x) k y = dict_set d k y.
Proof.
  induction d as [|[k0 v0] d' IH]; simpl.
  - now rewrite String.eqb_refl.
  - destruct (String.eqb k k0) eqn:E; simpl; rewrite E; [reflexivity|].
    now rewrite IH.
Qed.

Lemma assign_path_last_inv (current current' : value) (k : string) (v : value) :
  assign_path current [k] v = (current', None) ->
  exists d, current = VDict d /\ current' = VDict (dict_set d k v).
Proof.
  destruct current; try discriminate.
  cbn [assign_path py_setitem]. intros [= <-]. eauto.
Qed.

(** A successful write below the first segment: the root is a mapping,
    the write went on in the child found (or created) there, and the root
    now holds the child as the write left it. *)
Lemma assign_path_step_inv (current current' : value) (k k2 : string)
  (rest : list string) (v : value) :
  assign_path current (k :: k2 :: rest) v = (current', None) ->
  exists d child',
    current = VDict d
    /\ assign_path (match dict_get d k with
                    | Some c => c
                    | None => VDict []
                    end) (k2 :: rest) v = (child', None)
    /\ current' = VDict (dict_set d k child').
Proof.
  rewrite assign_path_step.
  destruct current; cbn [py_contains]; try discriminate;
    try (match goal with
         | |- context [if ?b then _ else _] => destruct b; discriminate
         end).
  unfold dict_has. destruct (dict_get d k) as [c|] eqn:Hget.
  - cbn [py_getitem]. rewrite Hget.
    destruct (assign_path c (k2 :: rest) v) as [child' e2] eqn:Ha.
    cbn [py_setitem fst]. intros [= <- ->].
    exists d, child'. rewrite Hget. auto.
  - cbn [py_setitem py_getitem]. rewrite dict_get_set_same.
    destruct (assign_path (VDict []) (k2 :: rest) v) as [child' e2] eqn:Ha.
    cbn [fst]. rewrite dict_set_twice. intros [= <- ->].
    exists d, child'. rewrite Hget. auto.
Qed.

Lemma diverge_nonempty_r (p q : list string) : diverge p q = true -> q <> [].
Proof. destruct p, q; simpl; congruence. Qed.

Lemma diverge_sym (p : list string) : forall q, diverge p q = diverge q p.
Proof.
  induction p as [|a p IH]; destruct q as [|b q]; simpl; auto.
  rewrite (String.eqb_sym b a). destruct (String.eqb a b); auto.
Qed.

Lemma lookup_path_cons (d : dict) (k : string) (rest : list string) :
  lookup_path (VDict d) (k :: rest) =
  match dict_get d k with
  | Some v => lookup_path v rest
  | None => None
  end.
Proof. reflexivity. Qed.

(** What a successful write stores is found at the path written. *)
Lemma assign_path_lookup (v : value) (path : list string) :
  forall current current',
    assign_path current path v = (current', None) ->
    lookup_path current' path = Some v.
Proof.
  induction path as [|k rest IH]; intros current current' Ha; [discriminate|].
  destruct rest as [|k2 rest2].
  - apply assign_path_last_inv in Ha as (d & -> & ->).
    rewrite lookup_path_cons, dict_get_set_same. reflexivity.
  - apply assign_path_step_inv in Ha as (d & child' & -> & Ha & ->).
    rewrite lookup_path_cons, dict_get_set_same. eapply IH, Ha.
Qed.

(** A successful write changes nothing at a path that parts ways with
    the path written. *)
Lemma assign_path_frame (v : value) (p : list string) :
  forall q current current',
    diverge p q = true ->
    assign_path current p v = (current', None) ->
    lookup_path current' q = lookup_path current q.
Proof.
  induction p as [|a rest IH]; intros q current current' Hd Ha;
    [discriminate|].
  destruct q as [|b q']; [discriminate|].
  cbn [diverge] in Hd.
  destruct rest as [|k2 rest2].
  - apply assign_path_last_inv in Ha as (d & -> & ->).
    destruct (String.eqb a b) eqn:E; [destruct q'; discriminate|].
    apply String.eqb_neq in E.
    now rewrite !lookup_path_cons, dict_get_set_other.
  - apply assign_path_step_inv in Ha as (d & child' & -> & Ha & ->).
    rewrite !lookup_path_cons.
    destruct (String.eqb a b) eqn:E.
    + apply String.eqb_eq in E. subst b.
      rewrite dict_get_set_same, (IH _ _ _ Hd Ha).
      destruct (dict_get d a); [reflexivity|].
      pose proof (diverge_nonempty_r _ _ Hd).
      destruct q'; [congruence | reflexivity].
    + apply String.eqb_neq in E. now rewrite dict_get_set_other.
Qed.

Lemma assign_path_is_dict (v : value) (path : list string)
  (current current' : value) :
  assign_path current path v = (current', None) ->
  is_dict current = true /\ is_dict current' = true.
Proof.
  destruct path as [|k [|k2 rest]]; [discriminate| |]; intros Ha.
  - apply assign_path_last_inv in Ha as (d & -> & ->). auto.
  - apply assign_path_step_inv in Ha as (d & child' & -> & _ & ->). auto.
Qed.

(** *** Environment overrides *)

Section Overrides.

Variable getenv : string -> option string.

(** The overrides change nothing at a path that parts ways with the
    target of every variable that is set. *)
Lemma apply_overrides_frame (q : list string) :
  forall mappings config config',
    forallb (fun m => match getenv (fst m) with
                      | None => true
                      | Some _ => diverge (snd m) q
                      end) mappings = true ->
    apply_overrides mappings getenv config = (config', None) ->
    lookup_path config' q = lookup_path config q.
Proof.
  induction mappings as [|[e p] more IH]; intros config config' Hall Hrun.
  - now injection Hrun as <-.
  - cbn [forallb fst snd] in Hall. apply andb_true_iff in Hall as [Hhd Htl].
    cbn [apply_overrides] in Hrun.
    destruct (getenv e) as [s|]; [|now apply IH].
    unfold _set_nested_value in Hrun.
    destruct (assign_path config p (_convert_env_value s)) as [c1 [x|]] eqn:Ha;
      [discriminate|].
    rewrite (IH _ _ Htl Hrun). eapply assign_path_frame; eauto.
Qed.

(** After the overrides have run, the target of every variable that is
    set holds the coerced value of that variable. *)
Lemma apply_overrides_lookup :
  forall mappings config config',
    targets_apart mappings = true ->
    apply_overrides mappings getenv config = (config', None) ->
    forall e p s,
      In (e, p) mappings -> getenv e = Some s ->
      lookup_path config' p = Some (_convert_env_value s).
Proof.
  induction mappings as [|[e0 p0] more IH];
    intros config config' Hap Hrun e p s Hin Henv; [contradiction|].
  cbn [targets_apart] in Hap.
  apply andb_true_iff in Hap as [Hap Hmore].
  apply andb_true_iff in Hap as [_ Hhd].
  cbn [apply_overrides] in Hrun.
  destruct Hin as [[= -> ->] | Hin].
  - rewrite Henv in Hrun. unfold _set_nested_value in Hrun.
    destruct (assign_path config p (_convert_env_value s)) as [c1 [x|]] eqn:Ha;
      [discriminate|].
    rewrite (apply_overrides_frame p more c1 config'); auto.
    + eapply assign_path_lookup; eauto.
    + rewrite forallb_forall in *. intros m Hm.
      destruct (getenv (fst m)); auto.
      rewrite diverge_sym. now apply Hhd.
  - destruct (getenv e0) as [s0|]; [|eapply IH; eauto].
    unfold _set_nested_value in Hrun.
    destruct (assign_path config p0 (_convert_env_value s0)) as [c1 [x|]];
      [discriminate|].
    eapply IH; eauto.
Qed.

End Overrides.

Lemma env_mappings_apart : targets_apart env_mappings = true.
Proof. reflexivity. Qed.

(** The dotted name of each target of the table splits back into its
    segments. *)
Lemma env_mappings_split (e : string) (p : list string) :
  In (e, p) env_mappings -> split (String.concat "." p) = p /\ p <> [].
Proof.
  unfold env_mappings. cbn [In].
  intros H; repeat (destruct H as [[= <- <-] | H]; [split; [reflexivity | discriminate]|]).
  contradiction.
Qed.

(** *** Default profiles *)

Lemma py_getitem_lookup (config : value) (k : string) (v : value) :
  py_getitem config k = Ok v <-> lookup_path config [k] = Some v.
Proof.
  destruct config; simpl; try (split; discriminate).
  destruct (dict_get d k); split; congruence.
Qed.

(** The fill-in leaves every value that is already in the tree where it
    is. *)
Lemma fill_defaults_keeps_lookup (defaults : dict) :
  forall config config',
    fill_defaults defaults config = (config', None) ->
    forall q v, q <> [] ->
      lookup_path config q = Some v -> lookup_path config' q = Some v.
Proof.
  induction defaults as [|[key dv] more IH]; intros config config' Hrun q v Hq Hl.
  - now injection Hrun as <-.
  - cbn [fill_defaults] in Hrun.
    destruct (py_contains key config) as [[|]|] eqn:Hc; try discriminate.
    + eapply IH; eauto.
    + destruct config; try discriminate.
      cbn [py_setitem] in Hrun. eapply IH; eauto.
      destruct q as [|b q']; [congruence|].
      rewrite lookup_path_cons in *.
      rewrite dict_get_set_other; auto.
      intros ->. cbn [py_contains] in Hc. unfold dict_has in Hc.
      destruct (dict_get d b); discriminate.
Qed.

Lemma fill_defaults_keeps (defaults : dict) (config config' : value)
  (k : string) (v : value) :
  fill_defaults defaults config = (config', None) ->
  py_getitem config k = Ok v -> py_getitem config' k = Ok v.
Proof.
  intros Hrun Hg. apply py_getitem_lookup.
  eapply fill_defaults_keeps_lookup; eauto; [discriminate|].
  now apply py_getitem_lookup.
Qed.

Lemma dict_has_set (d : dict) (k k' : string) (v : value) :
  dict_has (dict_set d k v) k' = String.eqb k k' || dict_has d k'.
Proof.
  unfold dict_has. destruct (String.eqb k k') eqn:E.
  - apply String.eqb_eq in E. subst. now rewrite dict_get_set_same.
  - apply String.eqb_neq in E. now rewrite dict_get_set_other.
Qed.

Lemma fill_defaults_contains_mono (defaults : dict) (k : string) :
  forall config config',
    fill_defaults defaults config = (config', None) ->
    py_contains k config = Ok true -> py_contains k config' = Ok true.
Proof.
  induction defaults as [|[key dv] more IH]; intros config config' Hrun Hk.
  - now injection Hrun as <-.
  - cbn [fill_defaults] in Hrun.
    destruct (py_contains key config) as [[|]|] eqn:Hc; try discriminate.
    + eapply IH; eauto.
    + destruct config; try discriminate.
      cbn [py_setitem] in Hrun. eapply IH; eauto.
      cbn [py_contains] in *. injection Hk as Hk.
      now rewrite dict_has_set, Hk, orb_true_r.
Qed.

(** After the fill-in every key of the table is in the tree. *)
Lemma fill_defaults_contains (defaults : dict) (k : string) :
  forall config config',
    fill_defaults defaults config = (config', None) ->
    In k (map fst defaults) -> py_contains k config' = Ok true.
Proof.
  induction defaults as [|[key dv] more IH]; intros config config' Hrun Hin;
    [contradiction|].
  cbn [fill_defaults] in Hrun. cbn [map fst In] in Hin.
  destruct (py_contains key config) as [[|]|] eqn:Hc; try discriminate.
  - destruct Hin as [<- | Hin]; [|eapply IH; eauto].
    eapply fill_defaults_contains_mono; eauto.
  - destruct config; try discriminate. cbn [py_setitem] in Hrun.
    destruct Hin as [<- | Hin]; [|eapply IH; eauto].
    eapply fill_defaults_contains_mono; eauto.
    cbn [py_contains]. now rewrite dict_has_set, String.eqb_refl.
Qed.

(** A key of the table that the tree lacks receives its default. *)
Lemma fill_defaults_fills (defaults : dict) (k : string) (dv : value) :
  forall config config',
    fill_defaults defaults config = (config', None) ->
    dict_get defaults k = Some dv ->
    py_contains k config = Ok false ->
    py_getitem config' k = Ok dv.
Proof.
  induction defaults as [|[key v0] more IH]; intros config config' Hrun Hd Hk;
    [discriminate|].
  cbn [fill_defaults] in Hrun. cbn [dict_get] in Hd.
  destruct (String.eqb k key) eqn:E.
  - apply String.eqb_eq in E. subst key. injection Hd as ->.
    rewrite Hk in Hrun. destruct config; try discriminate.
    cbn [py_setitem] in Hrun.
    eapply fill_defaults_keeps; eauto.
    cbn [py_getitem]. now rewrite dict_get_set_same.
  - destruct (py_contains key config) as [[|]|] eqn:Hc; try discriminate.
    + eapply IH; eauto.
    + destruct config; try discriminate. cbn [py_setitem] in Hrun.
      eapply IH; eauto.
      cbn [py_contains] in *. injection Hk as Hk.
      rewrite dict_has_set, Hk, String.eqb_sym, E. reflexivity.
Qed.

(** *** Construction and reload *)

Lemma load_config_overrides (self self' : manager) (w : world) :
  _load_config self w = (self', None) ->
  forall e p s,
    In (e, p) env_mappings -> environ w e = Some s ->
    lookup_path (_config self') p = Some (_convert_env_value s).
Proof.
  unfold _load_config, _apply_env_overrides. intros Hload e p s Hin Henv.
  destruct (files w (config_path self)) as [| |doc]; [|discriminate|].
  - destruct (apply_overrides env_mappings (environ w) (VDict []))
      as [c x] eqn:Hrun.
    injection Hload as <- ->. cbn [_config with_config].
    eapply apply_overrides_lookup; eauto using env_mappings_apart.
  - destruct (apply_overrides env_mappings (environ w)
                (if truthy doc then doc else VDict [])) as [c x] eqn:Hrun.
    injection Hload as <- ->. cbn [_config with_config].
    eapply apply_overrides_lookup; eauto using env_mappings_apart.
Qed.

(** What [__init__] does, step by step, when it returns an object. *)
Lemma init_inv (c : cls) (file : string) (w : world) (m : manager) :
  __init__ c file w = Ok m ->
  exists resolved,
    _load_config (Manager c file (VDict [])) w = (resolved, None)
    /\ class_of resolved = c
    /\ config_path resolved = file
    /\ class_of m = c
    /\ config_path m = file
    /\ fill_defaults (defaults_of c) (_config resolved) = (_config m, None).
Proof.
  unfold __init__.
  destruct (_load_config (Manager c file (VDict [])) w) as [r [x|]] eqn:Hload;
    [discriminate|].
  assert (Hr : class_of r = c /\ config_path r = file).
  { unfold _load_config in Hload. cbn [config_path] in Hload.
    destruct (files w file); [|discriminate|];
      match type of Hload with
      | (let (_, _) := ?t in _) = _ => destruct t
      end; injection Hload as <- _; auto. }
  destruct Hr as [Hc Hp]. intros H. exists r.
  destruct c.
  - injection H as <-. repeat split; auto.
  - unfold _apply_defaults in H. rewrite Hc in H. rewrite Hc.
    destruct (fill_defaults (defaults_of Client) (_config r)) as [c' [y|]];
      [discriminate|].
    injection H as <-. cbn. rewrite Hc, Hp. repeat split; auto.
  - unfold _apply_defaults in H. rewrite Hc in H. rewrite Hc.
    destruct (fill_defaults (defaults_of Host) (_config r)) as [c' [y|]];
      [discriminate|].
    injection H as <-. cbn. rewrite Hc, Hp. repeat split; auto.
Qed.

(** C1.  For every entry of the override table whose variable is set in
    the environment, [get] at the dotted target returns the coerced value
    of the variable, after every construction that returns a store (base,
    client or host class) and after every reload that returns normally,
    whatever the file holds. *)
Theorem env_override_takes_precedence (w : world) (envVar : string)
  (path : list string) (s : string) (default : value) :
  In (envVar, path) env_mappings ->
  environ w envVar = Some s ->
  (forall c file m,
      __init__ c file w = Ok m ->
      get m (String.concat "." path) default = Ok (_convert_env_value s))
  /\ (forall self self',
         reload self w = (self', None) ->
         get self' (String.concat "." path) default
         = Ok (_convert_env_value s)).
Proof.
  intros Hin Henv.
  destruct (env_mappings_split _ _ Hin) as [Hsplit Hne].
  split.
  - intros c file m Hinit.
    apply init_inv in Hinit as (r & Hload & _ & _ & _ & _ & Hfill).
    rewrite get_lookup, Hsplit.
    erewrite fill_defaults_keeps_lookup; eauto.
    eapply load_config_overrides; eauto.
  - intros self self' Hre. unfold reload in Hre.
    rewrite get_lookup, Hsplit.
    erewrite load_config_overrides; eauto.
Qed.

Lemma env_override_takes_precedence_witness :
  __init__ Client "config/client_config.yaml"
    (mk_world
       [("config/client_config.yaml",
         Document (VDict [("mqtt", VDict [("host", VStr "10.0.0.5");
                                          ("port", VInt 1883)])]))]
       [("MQTT_PORT", "8883")])
  = Ok (Manager Client "config/client_config.yaml"
          (VDict (("mqtt", VDict [("host", VStr "10.0.0.5");
                                  ("port", VInt 8883)])
                  :: firstn 4 Constants.DEFAULT_CLIENT_CONFIG
                  ++ skipn 5 Constants.DEFAULT_CLIENT_CONFIG)))
  /\ get (Manager Client "config/client_config.yaml"
            (VDict (("mqtt", VDict [("host", VStr "10.0.0.5");
                                    ("port", VInt 8883)])
                    :: firstn 4 Constants.DEFAULT_CLIENT_CONFIG
                    ++ skipn 5 Constants.DEFAULT_CLIENT_CONFIG)))
         "mqtt.port" VNone = Ok (VInt 8883).
Proof.
  split; [reflexivity|].
  exact (proj1
           (env_override_takes_precedence
              (mk_world
                 [("config/client_config.yaml",
                   Document (VDict [("mqtt", VDict [("host", VStr "10.0.0.5");
                                                    ("port", VInt 1883)])]))]
                 [("MQTT_PORT", "8883")])
              "MQTT_PORT" ["mqtt"; "port"] "8883" VNone
              (or_intror (or_introl eq_refl)) eq_refl)
           Client "config/client_config.yaml" _ eq_refl).
Defined.

(** C3.  When the construction of a store returns an object, every key of
    the default table of its class is in the tree, a key of the table that
    the resolved tree lacked holds its default, and every key that the
    resolved tree (file, then environment) already had still holds the
    value it had there.  The keys of a default table are its top-level
    keys: a nested default is not merged into a mapping that the file or
    the environment supplies. *)
Theorem defaults_fill_without_overwriting (c : cls) (file : string)
  (w : world) (m : manager) :
  __init__ c file w = Ok m ->
  exists resolved,
    _load_config (Manager c file (VDict [])) w = (resolved, None)
    /\ (forall key, In key (map fst (defaults_of c)) ->
                    py_contains key (_config m) = Ok true)
    /\ (forall key dv, dict_get (defaults_of c) key = Some dv ->
                       py_contains key (_config resolved) = Ok false ->
                       py_getitem (_config m) key = Ok dv)
    /\ (forall key v, py_getitem (_config resolved) key = Ok v ->
                      py_getitem (_config m) key = Ok v).
Proof.
  intros Hinit.
  apply init_inv in Hinit as (r & Hload & _ & _ & _ & _ & Hfill).
  exists r. split; [assumption|]. repeat split.
  - intros key Hin. eapply fill_defaults_contains; eauto.
  - intros key dv Hd Hc. eapply fill_defaults_fills; eauto.
  - intros key v Hg. eapply fill_defaults_keeps; eauto.
Qed.

Lemma defaults_fill_without_overwriting_witness :
  exists resolved,
    _load_config (Manager Host "config/host_config.yaml" (VDict []))
      (mk_world [("config/host_config.yaml",
                  Document (VDict [("dashboard", VDict [("port", VInt 80)])]))]
                [("LOG_LEVEL", "DEBUG")])
    = (resolved, None)
    /\ (forall key, In key (map fst (defaults_of Host)) ->
                    py_contains key
                      (VDict [("dashboard", VDict [("port", VInt 80)]);
                              ("logging", VDict [("level", VStr "DEBUG")]);
                              ("mqtt", VDict
                                 [ ("host", VStr "0.0.0.0");
                                   ("port", VInt 8883);
                                   ("websocket_port", VInt 9001);
                                   ("username", VStr "admin");
                                   ("password", VStr "secure_password_123");
                                   ("use_tls", VBool true);
                                   ("cert_file", VStr "/etc/ssl/certs/mqtt-server.crt");
                                   ("key_file", VStr "/etc/ssl/private/mqtt-server.key") ]);
                              ("database", VDict
                                 [ ("type", VStr "sqlite");
                                   ("path", VStr "data/sensors.db");
                                   ("retention_days", VInt 365) ])])
                    = Ok true).
Proof.
  destruct (defaults_fill_without_overwriting Host "config/host_config.yaml"
              (mk_world [("config/host_config.yaml",
                          Document (VDict [("dashboard", VDict [("port", VInt 80)])]))]
                        [("LOG_LEVEL", "DEBUG")])
              _ eq_refl) as (r & Hload & Hkeys & _).
  exists r. split; [exact Hload | exact Hkeys].
Defined.

(** C2.  The code at the failing input.  A client store built with no
    file and an empty environment holds the defaults of its class, so
    [get("sensor_pin")] is 4; after [reload()], which runs [_load_config]
    and nothing else, the tree is empty and the same [get] returns the
    caller's default.  [__init__] of the same class does call
    [_apply_defaults] after [_load_config]. *)
Theorem reload_does_not_reapply_defaults :
  exists m m',
    __init__ Client "config/client_config.yaml" (mk_world [] []) = Ok m
    /\ get m "sensor_pin" VNone = Ok (VInt 4)
    /\ reload m (mk_world [] []) = (m', None)
    /\ _config m' = VDict []
    /\ py_contains "sensor_pin" (_config m') = Ok false
    /\ get m' "sensor_pin" VNone = Ok VNone.
Proof.
  eexists. eexists. split; [reflexivity|].
  split; [reflexivity|]. split; [reflexivity|].
  repeat split.
Qed.

(** *** When construction fails *)

(** A write at a non-empty path raises nothing but [TypeError]. *)
Lemma assign_path_error (v : value) (path : list string) :
  forall current current' e,
    path <> [] ->
    assign_path current path v = (current', Some e) -> e = TypeError.
Proof.
  induction path as [|k rest IH]; intros current current' e Hne Ha; [congruence|].
  destruct rest as [|k2 rest2].
  - destruct current; cbn in Ha; congruence.
  - rewrite assign_path_step in Ha.
    destruct (is_dict current) eqn:Hd.
    + destruct current; try discriminate.
      cbn [py_contains] in Ha. unfold dict_has in Ha.
      destruct (dict_get d k) as [child|] eqn:Hget.
      * cbn [py_getitem] in Ha. rewrite Hget in Ha.
        destruct (assign_path child (k2 :: rest2) v) as [child' e2] eqn:Hc.
        injection Ha as _ ->. eapply IH; eauto. discriminate.
      * cbn [py_setitem py_getitem] in Ha. rewrite dict_get_set_same in Ha.
        destruct (assign_path (VDict []) (k2 :: rest2) v) as [child' e2] eqn:Hc.
        injection Ha as _ ->. eapply IH; eauto. discriminate.
    + rewrite <- assign_path_step in Ha.
      rewrite assign_path_non_mapping in Ha by (auto; discriminate).
      congruence.
Qed.

(** A successful write keeps writable every path that parts ways with
    the path written. *)
Lemma assign_path_keeps_ok (v : value) (p : list string) :
  forall q current current',
    diverge p q = true ->
    intermediates_ok current q = true ->
    assign_path current p v = (current', None) ->
    intermediates_ok current' q = true.
Proof.
  induction p as [|a rest IH]; intros q current current' Hd Hok Ha;
    [discriminate|].
  destruct q as [|b q']; [discriminate|].
  cbn [diverge] in Hd.
  destruct rest as [|k2 rest2].
  - apply assign_path_last_inv in Ha as (d & -> & ->).
    destruct (String.eqb a b) eqn:E; [destruct q'; discriminate|].
    apply String.eqb_neq in E.
    destruct q' as [|b2 q2]; [reflexivity|].
    rewrite intermediates_ok_step in *. now rewrite dict_get_set_other.
  - apply assign_path_step_inv in Ha as (d & child' & -> & Ha & ->).
    destruct q' as [|b2 q2]; [reflexivity|].
    rewrite intermediates_ok_step in *.
    destruct (String.eqb a b) eqn:E.
    + apply String.eqb_eq in E. subst b. rewrite dict_get_set_same.
      eapply IH; eauto.
      destruct (dict_get d a); [assumption | apply intermediates_ok_empty].
    + apply String.eqb_neq in E. now rewrite dict_get_set_other.
Qed.

(** The overrides go through when every target is writable. *)
Lemma apply_overrides_succeeds (getenv : string -> option string) :
  forall mappings config,
    targets_apart mappings = true ->
    is_dict config = true ->
    (forall m, In m mappings -> intermediates_ok config (snd m) = true) ->
    exists config',
      apply_overrides mappings getenv config = (config', None)
      /\ is_dict config' = true.
Proof.
  induction mappings as [|[e p] more IH]; intros config Hap Hd Hok.
  - exists config. auto.
  - cbn [targets_apart] in Hap.
    apply andb_true_iff in Hap as [Hap Hmore].
    apply andb_true_iff in Hap as [Hne Hhd].
    cbn [apply_overrides].
    destruct (getenv e) as [s|].
    + assert (Hp : p <> []) by (destruct p; [discriminate | discriminate]).
      destruct (assign_path_then_walk (_convert_env_value s) p config Hp
                  (Hok (e, p) (or_introl eq_refl))) as (c1 & Ha & _).
      unfold _set_nested_value. rewrite Ha.
      apply IH; auto.
      * eapply assign_path_is_dict; eauto.
      * intros m Hm. eapply assign_path_keeps_ok; eauto.
        -- rewrite forallb_forall in Hhd. now apply Hhd.
        -- apply Hok. now right.
    + apply IH; auto. intros m Hm. apply Hok. now right.
Qed.

Lemma apply_overrides_error (getenv : string -> option string) :
  forall mappings config config' e,
    targets_apart mappings = true ->
    apply_overrides mappings getenv config = (config', Some e) ->
    e = TypeError.
Proof.
  induction mappings as [|[k p] more IH]; intros config config' e Hap Hrun;
    [discriminate|].
  cbn [targets_apart] in Hap.
  apply andb_true_iff in Hap as [Hap Hmore].
  apply andb_true_iff in Hap as [Hne _].
  cbn [apply_overrides] in Hrun.
  destruct (getenv k) as [s|]; [|eapply IH; eauto].
  unfold _set_nested_value in Hrun.
  destruct (assign_path config p (_convert_env_value s)) as [c1 [x|]] eqn:Ha.
  - injection Hrun as _ <-. eapply assign_path_error; eauto.
    destruct p; discriminate.
  - eapply IH; eauto.
Qed.

Lemma fill_defaults_dict (defaults : dict) :
  forall d, exists d', fill_defaults defaults (VDict d) = (VDict d', None).
Proof.
  induction defaults as [|[key dv] more IH]; intros d; cbn [fill_defaults].
  - eauto.
  - cbn [py_contains py_setitem]. destruct (dict_has d key); apply IH.
Qed.

Lemma fill_defaults_error (defaults : dict) :
  forall config config' e,
    fill_defaults defaults config = (config', Some e) -> e = TypeError.
Proof.
  induction defaults as [|[key dv] more IH]; intros config config' e Hrun;
    [discriminate|].
  cbn [fill_defaults] in Hrun.
  destruct config; cbn [py_contains py_setitem] in Hrun;
    try (injection Hrun as _ <-; reflexivity);
    try (match type of Hrun with
         | context [if ?b then _ else _] => destruct b
         end; try (injection Hrun as _ <-; reflexivity); eapply IH; eauto).
Qed.

Lemma load_config_absent (self : manager) (w : world) :
  files w (config_path self) = Absent ->
  exists d,
    _load_config self w = (with_config self (VDict d), None)
    /\ apply_overrides env_mappings (environ w) (VDict []) = (VDict d, None).
Proof.
  intros Hf. unfold _load_config, _apply_env_overrides. rewrite Hf.
  destruct (apply_overrides_succeeds (environ w) env_mappings (VDict [])
              env_mappings_apart eq_refl) as (c & Hrun & Hd).
  { intros m _. apply intermediates_ok_empty. }
  rewrite Hrun. destruct c; try discriminate. eauto.
Qed.

Lemma load_config_error (self self' : manager) (w : world) (e : exn) :
  _load_config self w = (self', Some e) ->
  (files w (config_path self) = Unparsable /\ e = YAMLError /\ self' = self)
  \/ ((exists doc, files w (config_path self) = Document doc) /\ e = TypeError).
Proof.
  unfold _load_config, _apply_env_overrides.
  destruct (files w (config_path self)) as [| |doc] eqn:Hf.
  - destruct (load_config_absent self w Hf) as (d & _ & Hrun).
    rewrite Hrun. discriminate.
  - intros [= <- <-]. auto.
  - destruct (apply_overrides env_mappings (environ w)
                (if truthy doc then doc else VDict [])) as [c x] eqn:Hrun.
    intros [= <- ->]. right. split; [eauto|].
    eapply apply_overrides_error; eauto using env_mappings_apart.
Qed.

(** C7, as the code has it.  Construction and reload raise the parse
    error whenever the file exists and is rejected, and reload then leaves
    the store as it was.  They return normally whenever the file is
    absent, the tree being the overrides applied to an empty tree, filled
    in with the defaults of the class.  Any other failure of construction
    or of reload is a [TypeError] on a file that was parsed: an override
    or a default had to be written into something that is not a
    mapping. *)
Theorem load_failure_cases (c : cls) (file : string) (w : world) :
  (files w file = Unparsable ->
   __init__ c file w = Raise YAMLError
   /\ forall self, config_path self = file ->
                   reload self w = (self, Some YAMLError))
  /\ (files w file = Absent ->
      (exists m r,
          __init__ c file w = Ok m
          /\ apply_overrides env_mappings (environ w) (VDict []) = (r, None)
          /\ fill_defaults (defaults_of c) r = (_config m, None))
      /\ forall self, config_path self = file ->
                      exists self', reload self w = (self', None))
  /\ (forall e, __init__ c file w = Raise e ->
                (files w file = Unparsable /\ e = YAMLError)
                \/ ((exists doc, files w file = Document doc)
                    /\ e = TypeError))
  /\ (forall self self' e,
         config_path self = file ->
         reload self w = (self', Some e) ->
         (files w file = Unparsable /\ e = YAMLError)
         \/ ((exists doc, files w file = Document doc) /\ e = TypeError)).
Proof.
  split; [|split; [|split]]; cycle 3.
  { intros self self' e <- Hre. apply load_config_error in Hre. tauto. }
  - intros Hf. split.
    + unfold __init__, _load_config. cbn [config_path]. now rewrite Hf.
    + intros self <-. unfold reload, _load_config. now rewrite Hf.
  - intros Hf. split.
    + destruct (load_config_absent (Manager c file (VDict [])) w Hf)
        as (d & Hload & Hrun).
      destruct (fill_defaults_dict (defaults_of c) d) as (d' & Hfill).
      exists (Manager c file (VDict d')), (VDict d).
      split; [|split; assumption].
      unfold __init__. rewrite Hload. unfold _apply_defaults.
      cbn [with_config class_of config_path _config].
      rewrite Hfill. destruct c; try reflexivity.
      cbn in Hfill. now injection Hfill as <-.
    + intros self <-.
      destruct (load_config_absent self w Hf) as (d & Hload & _).
      unfold reload. eauto.
  - intros e. unfold __init__.
    destruct (_load_config (Manager c file (VDict [])) w) as [r [x|]] eqn:Hload.
    + intros [= <-]. apply load_config_error in Hload.
      cbn [config_path] in Hload. tauto.
    + assert (Hdoc : files w file <> Unparsable).
      { unfold _load_config in Hload. cbn [config_path] in Hload.
        intros Hf. rewrite Hf in Hload. discriminate. }
      assert (Hab : files w file <> Absent \/ is_dict (_config r) = true).
      { destruct (files w file) eqn:Hf; try (left; discriminate).
        right. destruct (load_config_absent (Manager c file (VDict [])) w Hf)
          as (d & Hl & _).
        rewrite Hl in Hload. now injection Hload as <-. }
      destruct c; [discriminate| |];
        unfold _apply_defaults;
        match goal with
        | |- context [fill_defaults ?ds ?cfg] =>
            destruct (fill_defaults ds cfg) as [c' [y|]] eqn:Hfill
        end; try discriminate;
        intros [= <-]; right;
        (split; [|eapply fill_defaults_error; eauto]);
        (destruct (files w file) eqn:Hf; [|congruence|eauto]);
        (destruct Hab as [Hab|Hab]; [congruence|]);
        (destruct (_config r); try discriminate);
        (match type of Hfill with
         | fill_defaults ?ds (VDict ?d) = _ =>
             destruct (fill_defaults_dict ds d) as (d' & Hd')
         end; congruence).
Qed.

Lemma load_failure_cases_witness :
  (exists m r,
      __init__ Client "config/client_config.yaml"
        (mk_world [] [("SENSOR_PIN", "17")]) = Ok m
      /\ apply_overrides env_mappings
           (environ (mk_world [] [("SENSOR_PIN", "17")])) (VDict [])
         = (r, None)
      /\ fill_defaults (defaults_of Client) r = (_config m, None))
  /\ __init__ Host "config/host_config.yaml"
       (mk_world [("config/host_config.yaml", Unparsable)] [])
     = Raise YAMLError.
Proof.
  split.
  - apply (load_failure_cases Client "config/client_config.yaml"
             (mk_world [] [("SENSOR_PIN", "17")])).
    reflexivity.
  - apply (load_failure_cases Host "config/host_config.yaml"
             (mk_world [("config/host_config.yaml", Unparsable)] [])).
    reflexivity.
Defined.

(** C7, as stated, fails: the file below is a well-formed mapping, and
    construction raises all the same, because [MQTT_HOST] has to be
    written under [mqtt], which holds an integer. *)
Lemma construction_fails_on_parsed_file :
  ~ ((exists e,
         __init__ Base "config/host_config.yaml"
           (mk_world [("config/host_config.yaml",
                       Document (VDict [("mqtt", VInt 5)]))]
                     [("MQTT_HOST", "broker")]) = Raise e)
     <-> files (mk_world [("config/host_config.yaml",
                           Document (VDict [("mqtt", VInt 5)]))]
                         [("MQTT_HOST", "broker")])
               "config/host_config.yaml" = Unparsable).
Proof.
  intros [H _].
  assert (Hf : exists e,
             __init__ Base "config/host_config.yaml"
               (mk_world [("config/host_config.yaml",
                           Document (VDict [("mqtt", VInt 5)]))]
                         [("MQTT_HOST", "broker")]) = Raise e)
    by (exists TypeError; reflexivity).
  apply H in Hf. discriminate Hf.
Qed.

(** *** Persistence *)

Lemma dict_get_insert_item (k : string) (v : value) (d : dict) (k' : string) :
  dict_get (insert_item (k, v) d) k' =
  if String.eqb k' k then Some v else dict_get d k'.
Proof.
  induction d as [|[k0 v0] d' IH]; cbn [insert_item fst dict_get]; [reflexivity|].
  destruct (String.leb k k0) eqn:Hle; cbn [dict_get]; [reflexivity|].
  rewrite IH.
  destruct (String.eqb k' k0) eqn:E0, (String.eqb k' k) eqn:E; auto.
  apply String.eqb_eq in E0, E. subst.
  destruct (String.leb_total k0 k0); congruence.
Qed.

(** Sorting the items of a mapping changes no lookup. *)
Lemma dict_get_sort_items (d : dict) (k : string) :
  dict_get (sort_items d) k = dict_get d k.
Proof.
  induction d as [|[k0 v0] d' IH]; [reflexivity|].
  change (sort_items ((k0, v0) :: d')) with (insert_item (k0, v0) (sort_items d')).
  rewrite dict_get_insert_item, IH. reflexivity.
Qed.

Lemma dict_get_map_values (f : value -> value) (d : dict) (k : string) :
  dict_get (map (fun kv => (fst kv, f (snd kv))) d) k
  = option_map f (dict_get d k).
Proof.
  induction d as [|[k0 v0] d' IH]; [reflexivity|].
  cbn [map fst snd dict_get]. destruct (String.eqb k k0); auto.
Qed.

(** The document written by [yaml.dump] holds, at every path, what the
    tree holds there, in the order of the dump. *)
Lemma yaml_order_lookup (q : list string) : forall tree,
  lookup_path (yaml_order tree) q = option_map yaml_order (lookup_path tree q).
Proof.
  induction q as [|k rest IH]; intros tree; [reflexivity|].
  destruct tree; try reflexivity.
  cbn [yaml_order]. rewrite !lookup_path_cons.
  rewrite dict_get_sort_items, dict_get_map_values.
  destruct (dict_get d k); cbn [option_map]; auto.
Qed.

Lemma yaml_order_scalar (v : value) : is_scalar v = true -> yaml_order v = v.
Proof. destruct v; try reflexivity; discriminate. Qed.

Lemma lookup_path_truthy (tree : value) (q : list string) (v : value) :
  q <> [] -> lookup_path tree q = Some v -> truthy tree = true.
Proof.
  destruct q as [|k rest]; [congruence|]. intros _.
  destruct tree; try discriminate. destruct d; [discriminate | reflexivity].
Qed.

(** What [_load_config] finds after a successful [save] to the path it
    reads. *)
Lemma load_after_save (self : manager) (path : option string)
  (w w' : world) (reader r : manager) (q : list string) (v : value) :
  save_config self path w = (w', None) ->
  config_path reader = save_target self path ->
  _load_config reader w' = (r, None) ->
  q <> [] ->
  lookup_path (_config self) q = Some v ->
  clear_of_overrides (environ w) q = true ->
  lookup_path (_config r) q = Some (yaml_order v).
Proof.
  intros Hsave Hpath Hload Hq Hl Hclear.
  unfold save_config in Hsave.
  destruct (writable w (save_target self path)); [|discriminate].
  injection Hsave as <-.
  unfold _load_config, _apply_env_overrides in Hload.
  rewrite Hpath in Hload.
  cbn [files write_file environ] in Hload.
  rewrite String.eqb_refl in Hload.
  assert (Hy : lookup_path (yaml_order (_config self)) q = Some (yaml_order v))
    by now rewrite yaml_order_lookup, Hl.
  rewrite (lookup_path_truthy _ _ _ Hq Hy) in Hload.
  destruct (apply_overrides env_mappings (environ w)
              (yaml_order (_config self))) as [c1 x] eqn:Hrun.
  injection Hload as <- ->. cbn [_config with_config].
  rewrite (apply_overrides_frame (environ w) q env_mappings _ _ Hclear Hrun).
  exact Hy.
Qed.

(** C8, as the code has it.  After a successful [save], a fresh
    construction from the path saved to, for any class, or a reload of a
    store that reads that path, in the same environment, finds at every
    path that is clear of the overrides in force what the tree held there
    when it was saved: the very value for a scalar, and for a mapping or a
    sequence the value as [yaml.dump] wrote it, its mappings listed in key
    order.  A path under the target of an override variable that is set is
    not covered: the coerced variable is written there again. *)
Theorem save_then_construct (self : manager) (path : option string)
  (w w' : world) (q : list string) (v : value) :
  save_config self path w = (w', None) ->
  q <> [] ->
  lookup_path (_config self) q = Some v ->
  clear_of_overrides (environ w) q = true ->
  (forall c m',
      __init__ c (save_target self path) w' = Ok m' ->
      lookup_path (_config m') q = Some (yaml_order v)
      /\ (is_scalar v = true -> lookup_path (_config m') q = Some v))
  /\ (forall reader reader',
         config_path reader = save_target self path ->
         reload reader w' = (reader', None) ->
         lookup_path (_config reader') q = Some (yaml_order v)
         /\ (is_scalar v = true ->
             lookup_path (_config reader') q = Some v)).
Proof.
  intros Hsave Hq Hl Hclear. split.
  - intros c m' Hinit.
    assert (Hgoal : lookup_path (_config m') q = Some (yaml_order v)).
    { apply init_inv in Hinit as (r & Hload & _ & Hp & _ & _ & Hfill).
      eapply fill_defaults_keeps_lookup; eauto.
      eapply (load_after_save self path w w'
                (Manager c (save_target self path) (VDict [])) r);
        eauto. }
    split; [exact Hgoal|].
    intros Hs. now rewrite <- (yaml_order_scalar v Hs).
  - intros reader reader' Hp Hre. unfold reload in Hre.
    assert (Hgoal : lookup_path (_config reader') q = Some (yaml_order v))
      by (eapply load_after_save; eauto).
    split; [exact Hgoal|].
    intros Hs. now rewrite <- (yaml_order_scalar v Hs).
Qed.

Lemma save_then_construct_witness :
  lookup_path
    (VDict [("dashboard", VDict [("port", VInt 9090)]);
            ("mqtt", VDict [("port", VInt 8883)]);
            ("sensor_type", VStr "DHT22")])
    ["dashboard"; "port"] = Some (VInt 9090).
Proof.
  refine (proj2
            (proj1
               (save_then_construct
                  (Manager Base "config/host_config.yaml"
                     (VDict [("sensor_type", VStr "DHT22");
                             ("mqtt", VDict [("port", VInt 1883)]);
                             ("dashboard", VDict [("port", VInt 9090)])]))
                  None
                  (mk_world [] [("MQTT_PORT", "8883")])
                  (write_file (mk_world [] [("MQTT_PORT", "8883")])
                     "config/host_config.yaml"
                     (Document
                        (VDict [("dashboard", VDict [("port", VInt 9090)]);
                                ("mqtt", VDict [("port", VInt 1883)]);
                                ("sensor_type", VStr "DHT22")])))
                  ["dashboard"; "port"] (VInt 9090) _ _ _ _)
               Base
               (Manager Base "config/host_config.yaml"
                  (VDict [("dashboard", VDict [("port", VInt 9090)]);
                          ("mqtt", VDict [("port", VInt 8883)]);
                          ("sensor_type", VStr "DHT22")]))
               _) _).
  - reflexivity.
  - discriminate.
  - reflexivity.
  - reflexivity.
  - reflexivity.
  - reflexivity.
Defined.

(** C8, as stated, fails.  With [MQTT_PORT=8883] in the environment and no
    file, a store is built, [mqtt.port] is set to 1883 and the store is
    saved; a fresh construction from the same path in the same environment
    reads 1883 from the file and overrides it: the key that held 1883
    before the save holds 8883 after. *)
Lemma roundtrip_loses_value_under_override :
  exists m0 m1 w' m2,
    __init__ Base "config/host_config.yaml"
      (mk_world [] [("MQTT_PORT", "8883")]) = Ok m0
    /\ set m0 "mqtt.port" (VInt 1883) = (m1, None)
    /\ save_config m1 None (mk_world [] [("MQTT_PORT", "8883")]) = (w', None)
    /\ files w' "config/host_config.yaml"
       = Document (VDict [("mqtt", VDict [("port", VInt 1883)])])
    /\ __init__ Base "config/host_config.yaml" w' = Ok m2
    /\ get m1 "mqtt.port" VNone = Ok (VInt 1883)
    /\ get m2 "mqtt.port" VNone = Ok (VInt 8883)
    /\ get m2 "mqtt.port" VNone <> get m1 "mqtt.port" VNone.
Proof.
  do 4 eexists.
  split; [reflexivity|]. split; [reflexivity|]. split; [reflexivity|].
  repeat split. discriminate.
Qed.


(** *** Schema validation *)

(** Induction on a schema node, with the property known for every node
    under a nested schema. *)
Lemma expected_nested_ind (P : expected -> Prop)
  (Htype : forall t, P (EType t))
  (Hschema : forall s, Forall (fun ke => P (snd ke)) s -> P (ESchema s)) :
  forall e, P e.
Proof.
  fix rec 1. intros [t | s].
  - apply Htype.
  - apply Hschema. induction s as [|ke s' IH]; constructor; [apply rec | exact IH].
Qed.

Lemma isinstance_kind (v : value) (t : pytype) :
  isinstance v t = kind_or_bool_as_int v t.
Proof. destruct v, t; reflexivity. Qed.

Lemma validate_loop_cons
  (check : string -> expected -> value -> list log_entry * res bool)
  (config : value) (key : string) (e : expected) (more : schema) :
  validate_loop check config ((key, e) :: more) =
  match py_contains key config with
  | Raise x => ([], Raise x)
  | Ok false => ([MissingKey key], Ok false)
  | Ok true =>
      match py_getitem config key with
      | Raise x => ([], Raise x)
      | Ok item =>
          match check key e item with
          | (log, Ok true) =>
              let (log', r) := validate_loop check config more in
              (log ++ log', r)
          | (log, r) => (log, r)
          end
      end
  end.
Proof. reflexivity. Qed.

Lemma violations_at_none (A : value -> pytype -> bool) (key : string)
  (e : expected) : violations_at A key e None = [MissingKey key].
Proof. destruct e; reflexivity. Qed.

Lemma conforms_at_none (A : value -> pytype -> bool) (e : expected) :
  conforms_at A e None = false.
Proof. destruct e; reflexivity. Qed.

Section Validation.

Local Notation "'A'" := kind_or_bool_as_int.

Lemma validate_loop_checked (s : schema) :
  Forall (fun ke => item_checked (snd ke)) s ->
  forall d,
    validate_loop check_item (VDict d) s
    = (firstn 1 (violations A d s), Ok (conforms A d s))
    /\ conforms A d s = none_found (violations A d s).
Proof.
  induction 1 as [|[key e] more Hhd Htl IH]; intros d; [split; reflexivity|].
  destruct (IH d) as [IHrun IHnone].
  rewrite validate_loop_cons. cbn [py_contains py_getitem]. unfold dict_has.
  unfold violations, conforms in *. cbn [flat_map forallb fst snd].
  destruct (dict_get d key) as [item|].
  - destruct (Hhd key item) as [Hrun Hnone]. cbn [snd] in Hrun, Hnone.
    rewrite Hrun, Hnone.
    destruct (violations_at A key e (Some item)) as [|x l]; cbn.
    + rewrite IHrun. auto.
    + auto.
  - rewrite violations_at_none, conforms_at_none. auto.
Qed.

Lemma check_item_checked : forall e, item_checked e.
Proof.
  induction e as [t | s Hs] using expected_nested_ind; intros key item.
  - cbn [check_item violations_at conforms_at].
    rewrite isinstance_kind. fold A.
    destruct (A item t); auto.
  - cbn [check_item].
    destruct item; cbn [is_dict]; try (split; reflexivity).
    apply (validate_loop_checked s Hs d).
Qed.

Lemma validate_recursive_checked (d : dict) (s : schema) :
  _validate_recursive (VDict d) s
  = (firstn 1 (violations A d s), Ok (conforms A d s))
  /\ conforms A d s = none_found (violations A d s).
Proof.
  apply validate_loop_checked.
  apply Forall_forall. intros ke _. apply check_item_checked.
Qed.

(** A key that the schema does not list has no part in the violations. *)
Lemma violations_extra_key (d : dict) (k : string) (v : value) (s : schema) :
  ~ In k (map fst s) ->
  violations A (dict_set d k v) s = violations A d s
  /\ conforms A (dict_set d k v) s = conforms A d s.
Proof.
  unfold violations, conforms.
  induction s as [|[key e] more IH]; intros Hk; [split; reflexivity|].
  cbn [map fst In] in Hk. cbn [flat_map forallb fst snd].
  rewrite dict_get_set_other by (intros ->; apply Hk; now left).
  destruct IH as [-> ->]; [tauto|]. split; reflexivity.
Qed.

End Validation.

(** C5, as the code has it.  On a tree that is a mapping, [validate]
    returns whether every key of the schema is present with the expected
    shape, logs the first violation in schema-declaration order and
    nothing else, and gives the same answer when a key that the schema
    does not list is added to the tree.  The expected shape of a leaf is
    the kind named by the schema, a boolean passing for an integer as
    well.  [validate] returns no new store. *)
Theorem validate_first_violation (c : cls) (file : string) (d : dict)
  (s : schema) :
  validate_config (Manager c file (VDict d)) s
  = (firstn 1 (violations kind_or_bool_as_int d s),
     conforms kind_or_bool_as_int d s)
  /\ (conforms kind_or_bool_as_int d s = true
      <-> violations kind_or_bool_as_int d s = [])
  /\ (forall k v,
         ~ In k (map fst s) ->
         validate_config (Manager c file (VDict (dict_set d k v))) s
         = validate_config (Manager c file (VDict d)) s).
Proof.
  assert (Hrun : forall d',
             validate_config (Manager c file (VDict d')) s
             = (firstn 1 (violations kind_or_bool_as_int d' s),
                conforms kind_or_bool_as_int d' s)).
  { intros d'. unfold validate_config. cbn [_config].
    destruct (validate_recursive_checked d' s) as [-> _]. reflexivity. }
  split; [apply Hrun|]. split.
  - destruct (validate_recursive_checked d s) as [_ ->].
    destruct (violations kind_or_bool_as_int d s); cbn; split; congruence.
  - intros k v Hk. rewrite !Hrun.
    destruct (violations_extra_key d k v s Hk) as [-> ->]. reflexivity.
Qed.

Lemma validate_first_violation_witness :
  validate_config
    (Manager Host "config/host_config.yaml"
       (VDict [("mqtt", VDict [("host", VStr "10.0.0.5")]);
               ("note", VStr "spare")]))
    [("mqtt", ESchema [("host", EType TStr); ("port", EType TInt)]);
     ("dashboard", ESchema [("port", EType TInt)])]
  = validate_config
      (Manager Host "config/host_config.yaml"
         (VDict [("mqtt", VDict [("host", VStr "10.0.0.5")])]))
      [("mqtt", ESchema [("host", EType TStr); ("port", EType TInt)]);
       ("dashboard", ESchema [("port", EType TInt)])].
Proof.
  refine (proj2 (proj2
            (validate_first_violation Host "config/host_config.yaml"
               [("mqtt", VDict [("host", VStr "10.0.0.5")])]
               [("mqtt", ESchema [("host", EType TStr); ("port", EType TInt)]);
                ("dashboard", ESchema [("port", EType TInt)])]))
            "note" (VStr "spare") _).
  simpl. intros [H | [H | []]]; discriminate H.
Defined.

(** C5, as stated, fails: a schema that expects an integer at [port] is
    satisfied by a tree that holds a boolean there, which is not a value
    of the expected primitive type. *)
Lemma validate_accepts_boolean_as_integer :
  ~ (snd (validate_config
            (Manager Host "config/host_config.yaml"
               (VDict [("port", VBool true)]))
            [("port", EType TInt)]) = true
     <-> conforms same_kind [("port", VBool true)] [("port", EType TInt)]
         = true).
Proof.
  intros [H _]. specialize (H eq_refl). discriminate H.
Qed.

(** *** Value coercion *)

Lemma lower_char_match (a b : ascii) :
  is_upper b = false -> Ascii.eqb (lower_char a) b = same_letter a b.
Proof.
  intros Hb. unfold same_letter. rewrite Hb, andb_false_l, orb_false_r.
  unfold lower_char. destruct (is_upper a) eqn:Ha.
  - destruct (Ascii.eqb a b) eqn:E; [|reflexivity].
    apply Ascii.eqb_eq in E. congruence.
  - now rewrite andb_false_l, orb_false_r.
Qed.

(** Comparing the lowered string with a lower-case word is matching the
    word without regard to case. *)
Lemma lower_eqb_ci (t : string) :
  no_upper t = true ->
  forall s, String.eqb (lower s) t = ci_match s t.
Proof.
  induction t as [|b t' IH]; intros Ht s; destruct s as [|a s']; try reflexivity.
  cbn [no_upper] in Ht. apply andb_true_iff in Ht as [Hb Ht].
  apply negb_true_iff in Hb.
  cbn [lower String.eqb ci_match].
  rewrite (lower_char_match a b Hb), (IH Ht s').
  destruct (same_letter a b); reflexivity.
Qed.

Lemma has_char_In (c : ascii) (s : string) :
  has_char c s = true <-> In c (list_ascii_of_string s).
Proof.
  induction s as [|a s' IH]; cbn [has_char list_ascii_of_string In].
  - split; [discriminate | contradiction].
  - rewrite orb_true_iff, Ascii.eqb_eq, IH. reflexivity.
Qed.

Lemma has_char_lower (c : ascii) (s : string) :
  has_char c s = true -> has_char (lower_char c) (lower s) = true.
Proof.
  induction s as [|a s' IH]; cbn [has_char lower]; [discriminate|].
  rewrite !orb_true_iff, !Ascii.eqb_eq. intros [-> | H]; auto.
Qed.

(** The letters of the five words that coercion knows. *)
Lemma word_letters (w : string) (x : ascii) :
  In w ["true"; "false"; "inf"; "infinity"; "nan"] ->
  has_char x w = true -> has_char x "aefilnrstuy" = true.
Proof.
  intros Hw.
  repeat (destruct Hw as [<- | Hw]; [
    cbn [has_char]; rewrite ?orb_false_r;
    repeat (rewrite orb_true_iff; intros [H | H]; [apply Ascii.eqb_eq in H; subst x; reflexivity | revert H]);
    try (intros H; apply Ascii.eqb_eq in H; subst x; reflexivity)
  |]).
  contradiction.
Qed.

Section Outside.

Variable c : ascii.
Hypothesis Hout : outside_literals c = true.

Lemma outside_facts :
  is_space c = false
  /\ digit_val c = None
  /\ Ascii.eqb c underscore = false
  /\ Ascii.eqb c "-"%char = false
  /\ Ascii.eqb c "+"%char = false
  /\ is_point c = false
  /\ is_exp_mark c = false
  /\ has_char (lower_char c) "aefilnrstuy" = false.
Proof.
  unfold outside_literals in Hout.
  apply andb_true_iff in Hout as [H Hl].
  apply andb_true_iff in H as [H Hs].
  apply andb_true_iff in H as [Hsp Hd].
  apply negb_true_iff in Hsp, Hs, Hl.
  cbn [has_char] in Hs. rewrite !orb_false_iff in Hs.
  destruct Hs as (Hu & Hplus & Hminus & Hdot & _).
  rewrite Ascii.eqb_sym in Hu, Hplus, Hminus, Hdot.
  repeat split; auto.
  - destruct (digit_val c); [discriminate | reflexivity].
  - unfold is_exp_mark.
    destruct (Ascii.eqb c "e") eqn:E1.
    + apply Ascii.eqb_eq in E1. subst c. discriminate Hl.
    + destruct (Ascii.eqb c "E") eqn:E2; [|reflexivity].
      apply Ascii.eqb_eq in E2. subst c. discriminate Hl.
Qed.

(** A word that coercion knows is not the lowered form of a string that
    holds the character. *)
Lemma outside_not_word (s w : string) :
  In w ["true"; "false"; "inf"; "infinity"; "nan"] ->
  has_char c s = true -> String.eqb (lower s) w = false.
Proof.
  intros Hw Hs. destruct (String.eqb (lower s) w) eqn:E; [|reflexivity].
  apply String.eqb_eq in E. apply has_char_lower in Hs. rewrite E in Hs.
  apply (word_letters w _ Hw) in Hs.
  destruct outside_facts as (_ & _ & _ & _ & _ & _ & _ & Hl). congruence.
Qed.

Lemma In_lstrip (l : list ascii) : In c l -> In c (lstrip l).
Proof.
  destruct outside_facts as (Hsp & _).
  induction l as [|a l' IH]; cbn [lstrip]; [auto|].
  destruct (is_space a) eqn:Ha; [|auto].
  intros [-> | H]; [congruence | auto].
Qed.

Lemma In_strip (l : list ascii) : In c l -> In c (strip l).
Proof.
  intros H. unfold strip.
  apply In_rev. rewrite rev_involutive.
  apply In_lstrip, In_rev. rewrite rev_involutive. now apply In_lstrip.
Qed.

Lemma In_split_sign (l : list ascii) : In c l -> In c (snd (split_sign l)).
Proof.
  destruct outside_facts as (_ & _ & _ & Hm & Hp & _).
  destruct l as [|a l']; [auto|]. cbn [split_sign].
  destruct (Ascii.eqb a "-") eqn:E1.
  - apply Ascii.eqb_eq in E1. subst a. cbn [snd].
    intros [<- | H]; [discriminate | assumption].
  - destruct (Ascii.eqb a "+") eqn:E2; [|auto].
    apply Ascii.eqb_eq in E2. subst a. cbn [snd].
    intros [<- | H]; [discriminate | assumption].
Qed.

Lemma digits_from_reject (n : nat) :
  forall l acc cnt,
    (length l <= n)%nat -> In c l -> digits_from acc cnt l = None.
Proof.
  destruct outside_facts as (_ & Hd & Hu & _).
  induction n as [|n IH]; intros l acc cnt Hlen Hin.
  - destruct l; [contradiction | cbn in Hlen; lia].
  - destruct l as [|a l']; [contradiction|].
    cbn [digits_from]. cbn [length] in Hlen.
    destruct (digit_val a) as [d|] eqn:Ha.
    + destruct Hin as [-> | Hin]; [congruence|].
      apply IH; [lia | assumption].
    + destruct (Ascii.eqb a underscore) eqn:Eu; [|reflexivity].
      apply Ascii.eqb_eq in Eu. subst a.
      destruct Hin as [<- | Hin]; [discriminate|].
      destruct l' as [|a' l'']; [reflexivity|].
      destruct (digit_val a') as [d|] eqn:Ha'; [|reflexivity].
      destruct Hin as [-> | Hin]; [congruence|].
      cbn [length] in Hlen. apply IH; [lia | assumption].
Qed.

Lemma digitpart_reject (l : list ascii) : In c l -> digitpart l = None.
Proof.
  destruct outside_facts as (_ & Hd & _).
  destruct l as [|a l']; [contradiction|]. cbn [digitpart].
  destruct (digit_val a) eqn:Ha; [|reflexivity].
  intros [-> | Hin]; [congruence|].
  eapply digits_from_reject; eauto.
Qed.

Lemma break_at_In (p : ascii -> bool) (l : list ascii) :
  p c = false -> In c l ->
  In c (fst (break_at p l))
  \/ exists r, snd (break_at p l) = Some r /\ In c r.
Proof.
  intros Hp. induction l as [|a l' IH]; [contradiction|].
  cbn [break_at]. destruct (p a) eqn:Ha.
  - intros [-> | Hin]; [congruence|]. right. cbn [snd]. eauto.
  - destruct (break_at p l') as [x y]. cbn [fst snd] in *.
    intros [-> | Hin]; [left; now left|].
    destruct (IH Hin) as [H | H]; [left; now right | now right].
Qed.

Lemma number_reject (l : list ascii) : In c l -> number l = None.
Proof.
  destruct outside_facts as (_ & _ & _ & _ & _ & Hpt & _).
  intros Hin. unfold number.
  destruct (break_at_In is_point l Hpt Hin) as [H | (r & Hr & H)];
    destruct (break_at is_point l) as [ip [fp|]]; cbn [fst snd] in *;
    try discriminate.
  - rewrite (digitpart_reject ip H).
    destruct ip; [contradiction|]. destruct fp; reflexivity.
  - now rewrite (digitpart_reject ip H).
  - injection Hr as ->. rewrite (digitpart_reject r H).
    destruct r; [contradiction|].
    destruct ip; [reflexivity|]. destruct (digitpart (a0 :: ip)) as [[? ?]|]; reflexivity.
Qed.

Lemma exponent_reject (l : list ascii) : In c l -> exponent l = None.
Proof.
  intros Hin. unfold exponent.
  pose proof (In_split_sign l Hin) as H.
  destruct (split_sign l) as [neg body]. cbn [snd] in H.
  now rewrite (digitpart_reject body H).
Qed.

Lemma py_int_reject (s : string) : has_char c s = true -> py_int s = None.
Proof.
  intros Hs. apply has_char_In in Hs. unfold py_int.
  pose proof (In_split_sign _ (In_strip _ Hs)) as H.
  destruct (split_sign (strip (list_ascii_of_string s))) as [neg body].
  cbn [snd] in H. now rewrite (digitpart_reject body H).
Qed.

Lemma py_float_reject (s : string) : has_char c s = true -> py_float s = None.
Proof.
  destruct outside_facts as (_ & _ & _ & _ & _ & _ & Hex & _).
  intros Hs. apply has_char_In in Hs. unfold py_float.
  pose proof (In_split_sign _ (In_strip _ Hs)) as H.
  destruct (split_sign (strip (list_ascii_of_string s))) as [neg body].
  cbn [snd] in H.
  assert (Hb : has_char c (string_of_list_ascii body) = true).
  { apply has_char_In. now rewrite list_ascii_of_string_of_list_ascii. }
  rewrite (outside_not_word _ "inf"), (outside_not_word _ "infinity"),
    (outside_not_word _ "nan") by (first [exact Hb | cbn; tauto]).
  cbn [orb].
  destruct (break_at_In is_exp_mark body Hex H) as [Hm | (r & Hr & Hm)];
    destruct (break_at is_exp_mark body) as [m [e|]]; cbn [fst snd] in *;
    try discriminate.
  - now rewrite (number_reject m Hm).
  - now rewrite (number_reject m Hm).
  - injection Hr as ->. rewrite (exponent_reject r Hm).
    destruct (number m) as [[? ?]|]; reflexivity.
Qed.

End Outside.




(** * Further properties of the configuration store *)

Import Notions.

(** *** Sections *)

(** [get_section] returns what the path holds, whatever its kind, and an
    empty mapping only when the path holds nothing: the result is a
    mapping exactly when the path is absent or holds a mapping. *)
Theorem get_section_result (self : manager) (section : string) :
  exists v,
    get_section self section = Ok v
    /\ (lookup_path (_config self) (split section) = None -> v = VDict [])
    /\ (forall x, lookup_path (_config self) (split section) = Some x -> v = x)
    /\ (is_dict v = false <->
        exists x, lookup_path (_config self) (split section) = Some x
                  /\ is_dict x = false).
Proof.
  unfold get_section. rewrite get_lookup.
  destruct (lookup_path (_config self) (split section)) as [x|] eqn:Hl.
  - exists x. repeat split; try congruence.
    + intros Hx. eauto.
    + intros (y & [= <-] & Hy). exact Hy.
  - exists (VDict []). repeat split; try congruence; try discriminate.
    intros (y & Hy & _). discriminate.
Qed.

(** *** [set] is all or nothing *)

Lemma assign_path_refused (v : value) (path : list string) :
  forall current,
    path <> [] ->
    intermediates_ok current path = false ->
    assign_path current path v = (current, Some TypeError).
Proof.
  induction path as [|k rest IH]; intros current Hne Hok; [congruence|].
  destruct (is_dict current) eqn:Hd;
    [|apply assign_path_non_mapping; assumption].
  destruct current; try discriminate.
  destruct rest as [|k2 rest2]; [discriminate|].
  rewrite intermediates_ok_step in Hok.
  destruct (dict_get d k) as [child|] eqn:Hget; [|discriminate].
  rewrite assign_path_step. cbn [py_contains]. unfold dict_has. rewrite Hget.
  cbn [py_getitem]. rewrite Hget.
  rewrite (IH child ltac:(discriminate) Hok). cbn [py_setitem fst].
  now rewrite (dict_set_get_id _ _ _ Hget).
Qed.

(** [set(path, value)] has two outcomes only.  When every segment before
    the last is absent or holds a mapping, and the tree is a mapping, it
    returns and [get(path)] is the value.  Otherwise it raises [TypeError]
    and the store is exactly what it was. *)
Theorem set_all_or_nothing (self : manager) (key : string)
  (v default : value) :
  (intermediates_ok (_config self) (split key) = true
   /\ exists self', set self key v = (self', None)
                    /\ get self' key default = Ok v)
  \/ (intermediates_ok (_config self) (split key) = false
      /\ set self key v = (self, Some TypeError)).
Proof.
  destruct (intermediates_ok (_config self) (split key)) eqn:Hok.
  - left. split; [reflexivity|].
    destruct (assign_path_then_walk v (split key) (_config self)
                (split_nonempty key) Hok) as (c & Ha & Hw).
    exists (with_config self c). unfold set, get. rewrite Ha.
    split; [reflexivity|]. cbn [_config with_config]. now rewrite Hw.
  - right. split; [reflexivity|]. unfold set.
    rewrite (assign_path_refused v _ _ (split_nonempty key) Hok).
    now rewrite with_config_same.
Qed.

(** A write that returns leaves alone every key whose path parts ways
    with the path written. *)
Theorem set_leaves_other_keys (self self' : manager) (key other : string)
  (v default : value) :
  diverge (split key) (split other) = true ->
  set self key v = (self', None) ->
  get self' other default = get self other default.
Proof.
  intros Hd Hset. unfold set in Hset.
  destruct (assign_path (_config self) (split key) v) as [c e] eqn:Ha.
  injection Hset as <- ->.
  rewrite !get_lookup. cbn [_config with_config].
  now rewrite (assign_path_frame v _ _ _ _ Hd Ha).
Qed.

Lemma set_leaves_other_keys_witness :
  get (Manager Host "config/host_config.yaml"
         (VDict [("mqtt", VDict [("host", VStr "10.0.0.5");
                                 ("port", VInt 8883)])]))
      "mqtt.host" VNone
  = get (Manager Host "config/host_config.yaml"
           (VDict [("mqtt", VDict [("host", VStr "10.0.0.5");
                                   ("port", VInt 1883)])]))
        "mqtt.host" VNone.
Proof.
  apply (set_leaves_other_keys
           (Manager Host "config/host_config.yaml"
              (VDict [("mqtt", VDict [("host", VStr "10.0.0.5");
                                      ("port", VInt 1883)])]))
           (Manager Host "config/host_config.yaml"
              (VDict [("mqtt", VDict [("host", VStr "10.0.0.5");
                                      ("port", VInt 8883)])]))
           "mqtt.port" "mqtt.host" (VInt 8883) VNone).
  - reflexivity.
  - reflexivity.
Defined.

Lemma assign_path_result_ok (v : value) (path : list string) :
  forall current current',
    assign_path current path v = (current', None) ->
    intermediates_ok current' path = true.
Proof.
  induction path as [|k rest IH]; intros current current' Ha; [discriminate|].
  destruct rest as [|k2 rest2].
  - apply assign_path_last_inv in Ha as (d & -> & ->). reflexivity.
  - apply assign_path_step_inv in Ha as (d & child' & -> & Ha & ->).
    rewrite intermediates_ok_step, dict_get_set_same. eapply IH, Ha.
Qed.

(** The last write wins: a second [set] at a key where a first one
    returned also returns, and [get] then gives the second value. *)
Theorem set_twice_last_wins (self s1 : manager) (key : string)
  (v1 v2 default : value) :
  set self key v1 = (s1, None) ->
  exists s2, set s1 key v2 = (s2, None) /\ get s2 key default = Ok v2.
Proof.
  intros Hset. unfold set in Hset.
  destruct (assign_path (_config self) (split key) v1) as [c e] eqn:Ha.
  injection Hset as <- ->.
  destruct (assign_path_then_walk v2 (split key) c (split_nonempty key)
              (assign_path_result_ok _ _ _ _ Ha)) as (c2 & Ha2 & Hw).
  exists (with_config self c2). unfold set, get.
  cbn [_config with_config]. rewrite Ha2.
  split; [reflexivity|]. cbn [_config with_config]. now rewrite Hw.
Qed.

Lemma set_twice_last_wins_witness :
  exists s2,
    set (Manager Base "c.yaml" (VDict [("dashboard", VDict [("port", VInt 8080)])]))
        "dashboard.port" (VInt 9090) = (s2, None)
    /\ get s2 "dashboard.port" VNone = Ok (VInt 9090).
Proof.
  apply (set_twice_last_wins
           (Manager Base "c.yaml" (VDict []))
           (Manager Base "c.yaml"
              (VDict [("dashboard", VDict [("port", VInt 8080)])]))
           "dashboard.port" (VInt 8080) (VInt 9090) VNone).
  reflexivity.
Defined.

(** *** Reload *)

(** What [_load_config] computes depends on the store through its class
    and its path only, unless the file is rejected. *)
Lemma load_config_forgets (a b : manager) (w : world) :
  class_of a = class_of b ->
  config_path a = config_path b ->
  files w (config_path a) <> Unparsable ->
  _load_config a w = _load_config b w.
Proof.
  intros Hc Hp Hf. unfold _load_config. rewrite <- Hp.
  destruct (files w (config_path a)); [|congruence|];
    match goal with
    | |- (let (_, _) := ?t in _) = _ => destruct t
    end; unfold with_config; now rewrite Hc, Hp.
Qed.

Lemma load_config_keeps_identity (self self' : manager) (w : world)
  (e : option exn) :
  _load_config self w = (self', e) ->
  class_of self' = class_of self /\ config_path self' = config_path self.
Proof.
  unfold _load_config.
  destruct (files w (config_path self)); [|intros [= <- _]; auto|];
    match goal with
    | |- (let (_, _) := ?t in _) = _ -> _ => destruct t
    end; intros [= <- _]; auto.
Qed.

(** Reloading twice in the same world is reloading once: the second
    [reload()] returns the store and the outcome of the first. *)
Theorem reload_idempotent (self : manager) (w : world) :
  reload (fst (reload self w)) w = reload self w.
Proof.
  unfold reload.
  destruct (_load_config self w) as [s1 e] eqn:H1. cbn [fst].
  destruct (load_config_keeps_identity _ _ _ _ H1) as [Hc Hp].
  destruct (files w (config_path self)) as [| |doc] eqn:Hf.
  - rewrite <- H1. apply load_config_forgets; auto. rewrite Hp, Hf. discriminate.
  - unfold _load_config in H1. rewrite Hf in H1. injection H1 as <- <-.
    unfold _load_config. now rewrite Hf.
  - rewrite <- H1. apply load_config_forgets; auto. rewrite Hp, Hf. discriminate.
Qed.

(** A reload forgets what [set] wrote: unless the file is rejected, the
    reload of a store after any [set], successful or not, is the reload
    of the store before it. *)
Theorem reload_discards_set (self : manager) (key : string) (v : value)
  (w : world) :
  files w (config_path self) <> Unparsable ->
  reload (fst (set self key v)) w = reload self w.
Proof.
  intros Hf. unfold reload, set.
  destruct (assign_path (_config self) (split key) v) as [c e]. cbn [fst].
  apply load_config_forgets; auto.
Qed.

Lemma reload_discards_set_witness :
  reload (fst (set (Manager Host "config/host_config.yaml" (VDict []))
                   "dashboard.port" (VInt 9090)))
         (mk_world [] [("LOG_LEVEL", "DEBUG")])
  = reload (Manager Host "config/host_config.yaml" (VDict []))
           (mk_world [] [("LOG_LEVEL", "DEBUG")]).
Proof.
  apply (reload_discards_set
           (Manager Host "config/host_config.yaml" (VDict []))
           "dashboard.port" (VInt 9090)
           (mk_world [] [("LOG_LEVEL", "DEBUG")])).
  discriminate.
Defined.

(** A write that raises leaves the object as it was. *)
Lemma assign_path_failure (v : value) (path : list string)
  (current current' : value) (e : exn) :
  assign_path current path v = (current', Some e) -> current' = current.
Proof.
  destruct path as [|k rest]; [now intros [= <- _]|].
  assert (Hne : k :: rest <> []) by discriminate.
  destruct (intermediates_ok current (k :: rest)) eqn:Hok.
  - destruct (assign_path_then_walk v (k :: rest) current Hne Hok)
      as (c & Ha & _).
    rewrite Ha. discriminate.
  - rewrite (assign_path_refused v _ _ Hne Hok).
    now intros [= <- _].
Qed.

(** The overrides, whether they all go through or one of them raises,
    change nothing at a path that is clear of the overrides in force. *)
Lemma apply_overrides_frame_any (getenv : string -> option string)
  (q : list string) :
  forall mappings config config' x,
    forallb (fun m => match getenv (fst m) with
                      | None => true
                      | Some _ => diverge (snd m) q
                      end) mappings = true ->
    apply_overrides mappings getenv config = (config', x) ->
    lookup_path config' q = lookup_path config q.
Proof.
  induction mappings as [|[e p] more IH]; intros config config' x Hall Hrun.
  - now injection Hrun as <- _.
  - cbn [forallb fst snd] in Hall. apply andb_true_iff in Hall as [Hhd Htl].
    cbn [apply_overrides] in Hrun.
    destruct (getenv e) as [s|]; [|eapply IH; eauto].
    unfold _set_nested_value in Hrun.
    destruct (assign_path config p (_convert_env_value s)) as [c1 [y|]] eqn:Ha.
    + injection Hrun as <- _.
      now rewrite (assign_path_failure _ _ _ _ _ Ha).
    + rewrite (IH _ _ _ Htl Hrun). eapply assign_path_frame; eauto.
Qed.

(** A reload that raises [TypeError] has already replaced the tree: the
    store holds the document just read (an empty mapping for a document
    that tests false) with the overrides that went through, so that at
    every path clear of the overrides in force it shows the new file,
    not the tree it had before. *)
Theorem failed_reload_replaces_tree (self self' : manager) (w : world) :
  reload self w = (self', Some TypeError) ->
  exists doc,
    files w (config_path self) = Document doc
    /\ forall q,
         clear_of_overrides (environ w) q = true ->
         lookup_path (_config self') q
         = lookup_path (if truthy doc then doc else VDict []) q.
Proof.
  unfold reload, _load_config, _apply_env_overrides. intros Hre.
  destruct (files w (config_path self)) as [| |doc] eqn:Hf.
  - destruct (load_config_absent self w Hf) as (d & _ & Hrun).
    rewrite Hrun in Hre. discriminate.
  - discriminate.
  - exists doc. split; [reflexivity|]. intros q Hq.
    destruct (apply_overrides env_mappings (environ w)
                (if truthy doc then doc else VDict [])) as [c x] eqn:Hrun.
    injection Hre as <- _. cbn [_config with_config].
    eapply apply_overrides_frame_any; eauto.
Qed.

Lemma failed_reload_replaces_tree_witness :
  exists doc,
    files (mk_world [("config/host_config.yaml",
                      Document (VDict [("mqtt", VInt 5);
                                       ("dashboard", VDict [("port", VInt 80)])]))]
                    [("MQTT_HOST", "broker")])
          "config/host_config.yaml" = Document doc
    /\ forall q,
         clear_of_overrides
           (environ (mk_world [("config/host_config.yaml",
                                Document (VDict [("mqtt", VInt 5);
                                                 ("dashboard", VDict [("port", VInt 80)])]))]
                              [("MQTT_HOST", "broker")])) q = true ->
         lookup_path
           (VDict [("mqtt", VInt 5); ("dashboard", VDict [("port", VInt 80)])]) q
         = lookup_path (if truthy doc then doc else VDict []) q.
Proof.
  apply (failed_reload_replaces_tree
           (Manager Host "config/host_config.yaml"
              (VDict [("dashboard", VDict [("port", VInt 8080)])]))
           (Manager Host "config/host_config.yaml"
              (VDict [("mqtt", VInt 5); ("dashboard", VDict [("port", VInt 80)])]))
           (mk_world [("config/host_config.yaml",
                       Document (VDict [("mqtt", VInt 5);
                                        ("dashboard", VDict [("port", VInt 80)])]))]
                     [("MQTT_HOST", "broker")])).
  reflexivity.
Defined.

(** *** What the environment contributes *)

Lemma apply_overrides_same (env1 env2 : string -> option string) :
  forall mappings config,
    (forall m, In m mappings -> env1 (fst m) = env2 (fst m)) ->
    apply_overrides mappings env1 config = apply_overrides mappings env2 config.
Proof.
  induction mappings as [|[e p] more IH]; intros config Hsame; [reflexivity|].
  cbn [apply_overrides].
  pose proof (Hsame (e, p) (or_introl eq_refl)) as He. cbn [fst] in He.
  rewrite <- He.
  destruct (env1 e) as [s|].
  - destruct (_set_nested_value config p (_convert_env_value s)) as [c [x|]];
      [reflexivity|].
    apply IH. intros m Hm. apply Hsame. now right.
  - apply IH. intros m Hm. apply Hsame. now right.
Qed.

(** Only the twelve variables of the override table count: two worlds
    with the same file at the path, whose environments agree on those
    variables, build the same store or raise the same exception. *)
Theorem other_variables_ignored (c : cls) (file : string) (w1 w2 : world) :
  files w1 file = files w2 file ->
  same_overrides (environ w1) (environ w2) ->
  __init__ c file w1 = __init__ c file w2.
Proof.
  intros Hf He. unfold __init__, _load_config, _apply_env_overrides.
  cbn [config_path]. rewrite Hf.
  destruct (files w2 file); [|reflexivity|];
    now rewrite (apply_overrides_same (environ w1) (environ w2)
                   env_mappings _ He).
Qed.

Lemma other_variables_ignored_witness :
  __init__ Client "config/client_config.yaml"
    (mk_world [] [("HOME", "/home/pi"); ("SENSOR_PIN", "17")])
  = __init__ Client "config/client_config.yaml"
      (mk_world [] [("SENSOR_PIN", "17"); ("MQTT_BROKER", "10.0.0.9")]).
Proof.
  apply (other_variables_ignored Client "config/client_config.yaml"
           (mk_world [] [("HOME", "/home/pi"); ("SENSOR_PIN", "17")])
           (mk_world [] [("SENSOR_PIN", "17"); ("MQTT_BROKER", "10.0.0.9")])).
  - reflexivity.
  - intros m Hm. unfold env_mappings in Hm. cbn [In] in Hm.
    repeat (destruct Hm as [<- | Hm]; [reflexivity|]). contradiction.
Defined.

Lemma apply_overrides_none_set (getenv : string -> option string) :
  forall mappings config,
    forallb (fun m => match getenv (fst m) with
                      | None => true
                      | Some _ => false
                      end) mappings = true ->
    apply_overrides mappings getenv config = (config, None).
Proof.
  induction mappings as [|[e p] more IH]; intros config Hall; [reflexivity|].
  cbn [forallb fst] in Hall. apply andb_true_iff in Hall as [Hhd Htl].
  cbn [apply_overrides]. destruct (getenv e); [discriminate|]. now apply IH.
Qed.



(** *** Defaults are filled in at the top level only *)

(** When the resolved tree (file, then environment) has a top-level key,
    the store shows under that key what the resolved tree shows, at any
    depth: a nested default of the profile is never merged into a mapping
    that the file or an override supplied. *)
Theorem nested_defaults_not_merged (c : cls) (file : string) (w : world)
  (m resolved : manager) (k : string) (x : value) (sub : list string) :
  __init__ c file w = Ok m ->
  _load_config (Manager c file (VDict [])) w = (resolved, None) ->
  lookup_path (_config resolved) [k] = Some x ->
  lookup_path (_config m) (k :: sub) = lookup_path (_config resolved) (k :: sub).
Proof.
  intros Hinit Hload Hk.
  apply init_inv in Hinit as (r & Hload' & _ & _ & _ & _ & Hfill).
  rewrite Hload in Hload'. injection Hload' as <-.
  pose proof (fill_defaults_keeps_lookup _ _ _ Hfill [k] x
                ltac:(discriminate) Hk) as Hm.
  destruct (_config m); try discriminate.
  destruct (_config resolved); try discriminate.
  rewrite !lookup_path_cons. rewrite lookup_path_cons in Hm, Hk.
  destruct (dict_get d k); [|discriminate].
  destruct (dict_get d0 k); [|discriminate].
  cbn in Hm, Hk. congruence.
Qed.

Lemma nested_defaults_not_merged_witness :
  lookup_path
    (VDict (("mqtt", VDict [("host", VStr "10.0.0.5")])
            :: firstn 4 Constants.DEFAULT_CLIENT_CONFIG
            ++ skipn 5 Constants.DEFAULT_CLIENT_CONFIG))
    ["mqtt"; "port"]
  = lookup_path (VDict [("mqtt", VDict [("host", VStr "10.0.0.5")])])
      ["mqtt"; "port"].
Proof.
  apply (nested_defaults_not_merged Client "config/client_config.yaml"
           (mk_world [] [("MQTT_HOST", "10.0.0.5")])
           (Manager Client "config/client_config.yaml"
              (VDict (("mqtt", VDict [("host", VStr "10.0.0.5")])
                      :: firstn 4 Constants.DEFAULT_CLIENT_CONFIG
                      ++ skipn 5 Constants.DEFAULT_CLIENT_CONFIG)))
           (Manager Client "config/client_config.yaml"
              (VDict [("mqtt", VDict [("host", VStr "10.0.0.5")])]))
           "mqtt" (VDict [("host", VStr "10.0.0.5")]) ["port"]).
  - reflexivity.
  - reflexivity.
  - reflexivity.
Defined.

(** *** Coercion of digits *)

Lemma digit_char_facts (c : ascii) (d : N) :
  digit_val c = Some d ->
  is_space c = false
  /\ Ascii.eqb c "-"%char = false
  /\ Ascii.eqb c "+"%char = false
  /\ Ascii.eqb (lower_char c) "t"%char = false
  /\ Ascii.eqb (lower_char c) "f"%char = false
  /\ Ascii.eqb (lower_char c) "i"%char = false
  /\ Ascii.eqb (lower_char c) "n"%char = false
  /\ is_exp_mark c = false
  /\ is_point c = false.
Proof.
  destruct c as [[] [] [] [] [] [] [] []]; vm_compute; intros H;
    try discriminate H; repeat split.
Qed.

Lemma digits_from_all (s : string) : forall acc cnt,
  all_digits s = true ->
  digits_from acc cnt (list_ascii_of_string s)
  = Some (decimal_from acc s, (cnt + String.length s)%nat).
Proof.
  induction s as [|c s' IH]; intros acc cnt Hs.
  - cbn. now rewrite Nat.add_0_r.
  - cbn [all_digits] in Hs.
    cbn [list_ascii_of_string digits_from decimal_from String.length].
    destruct (digit_val c) as [d|]; [|discriminate].
    rewrite (IH _ _ Hs). now rewrite Nat.add_succ_r.
Qed.

Lemma lstrip_digits (l : list ascii) :
  Forall (fun c => is_space c = false) l -> lstrip l = l.
Proof.
  destruct 1 as [|c l' Hc _]; [reflexivity|]. cbn [lstrip]. now rewrite Hc.
Qed.

Lemma all_digits_chars (s : string) :
  all_digits s = true ->
  Forall (fun c => is_space c = false) (list_ascii_of_string s)
  /\ Forall (fun c => is_exp_mark c = false) (list_ascii_of_string s)
  /\ Forall (fun c => is_point c = false) (list_ascii_of_string s).
Proof.
  induction s as [|c s' IH]; cbn [all_digits list_ascii_of_string];
    [repeat split; constructor|].
  destruct (digit_val c) as [d|] eqn:Hd; [|discriminate].
  intros Hs. destruct (IH Hs) as (H1 & H2 & H3).
  destruct (digit_char_facts c d Hd) as (? & _ & _ & _ & _ & _ & _ & ? & ?).
  repeat split; constructor; assumption.
Qed.

Lemma break_at_none (p : ascii -> bool) (l : list ascii) :
  Forall (fun c => p c = false) l -> break_at p l = (l, None).
Proof.
  induction 1 as [|c l Hc _ IH]; [reflexivity|].
  cbn [break_at]. now rewrite Hc, IH.
Qed.

(** A value made of decimal digits only is never kept as a string.  With
    at most 4300 digits, the default limit of [int], it is coerced to
    the integer it writes, so leading zeros do not survive: a variable
    set to [007] is stored as the integer 7.  With more digits [int]
    refuses it and it is coerced to the float that [float] reads. *)
Theorem digits_become_integer (s : string) :
  s <> "" ->
  all_digits s = true ->
  (String.length s <= 4300 ->
   _convert_env_value s = VInt (Z.of_N (decimal_value s)))
  /\ (4300 < String.length s ->
      py_int s = None
      /\ py_float s = Some (FDec false (decimal_value s) 0)
      /\ _convert_env_value s = VFloat (FDec false (decimal_value s) 0)).
Proof.
  intros Hne Hs.
  destruct (all_digits_chars s Hs) as (Hsp & Hex & Hpt).
  destruct s as [|c s']; [congruence|].
  cbn [all_digits] in Hs.
  destruct (digit_val c) as [d|] eqn:Hd; [|discriminate].
  destruct (digit_char_facts c d Hd) as (_ & Hm & Hp & Ht & Hf & Hi & Hn & _).
  assert (Hstrip : strip (list_ascii_of_string (String c s'))
                   = list_ascii_of_string (String c s')).
  { unfold strip. rewrite (lstrip_digits _ Hsp).
    rewrite (lstrip_digits (rev _)) by (now apply Forall_rev).
    apply rev_involutive. }
  assert (Hdp : digitpart (list_ascii_of_string (String c s'))
                = Some (decimal_value (String c s'), String.length (String c s'))).
  { cbn [list_ascii_of_string digitpart decimal_value String.length].
    rewrite Hd. now rewrite (digits_from_all s' d 1 Hs). }
  assert (Hbool : String.eqb (lower (String c s')) "true"
                  || String.eqb (lower (String c s')) "false" = false).
  { cbn [lower String.eqb]. now rewrite Ht, Hf. }
  assert (Hint : py_int (String c s')
                 = if (N.of_nat (String.length (String c s'))
                       <=? int_max_str_digits)%N
                   then Some (Z.of_N (decimal_value (String c s')))
                   else None).
  { unfold py_int. rewrite Hstrip.
    cbn [list_ascii_of_string split_sign]. rewrite Hm, Hp.
    change (c :: list_ascii_of_string s')
      with (list_ascii_of_string (String c s')).
    now rewrite Hdp. }
  unfold _convert_env_value. rewrite Hbool, Hint. split.
  - intros Hlen.
    assert (H : (N.of_nat (String.length (String c s'))
                 <=? int_max_str_digits)%N = true).
    { apply N.leb_le. unfold int_max_str_digits. lia. }
    now rewrite H.
  - intros Hlen.
    assert (H : (N.of_nat (String.length (String c s'))
                 <=? int_max_str_digits)%N = false).
    { apply N.leb_gt. unfold int_max_str_digits. lia. }
    rewrite H.
    assert (Hfl : py_float (String c s')
                  = Some (FDec false (decimal_value (String c s')) 0)).
    { unfold py_float. rewrite Hstrip.
      cbn [list_ascii_of_string split_sign]. rewrite Hm, Hp.
      cbn [string_of_list_ascii lower String.eqb]. rewrite Hi, Hn.
      cbn [andb orb].
      change (c :: list_ascii_of_string s')
        with (list_ascii_of_string (String c s')).
      rewrite (break_at_none _ _ Hex). unfold number.
      rewrite (break_at_none _ _ Hpt), Hdp. reflexivity. }
    rewrite Hfl. auto.
Qed.

Lemma digits_become_integer_witness :
  _convert_env_value "007" = VInt 7.
Proof.
  refine (proj1 (digits_become_integer "007" _ _) _).
  - discriminate.
  - reflexivity.
  - cbn. lia.
Defined.

(** *** Validation of a tree that is not a mapping *)

(** When the tree is not a mapping (the file held a list or a scalar),
    validation against a schema that lists a key returns false: either
    the first key is reported missing, or the [TypeError] raised by the
    membership test or the subscript is caught and logged. *)
Theorem validate_non_mapping (self : manager) (key : string) (e : expected)
  (more : schema) :
  is_dict (_config self) = false ->
  validate_config self ((key, e) :: more) = ([MissingKey key], false)
  \/ validate_config self ((key, e) :: more)
     = ([ValidationFailed TypeError], false).
Proof.
  intros Hd. unfold validate_config, _validate_recursive.
  rewrite validate_loop_cons.
  destruct (_config self); try discriminate; cbn [py_contains py_getitem];
    try (right; reflexivity);
    match goal with
    | |- context [if ?b then _ else _] => destruct b
    | |- context [match ?b with true => _ | false => _ end] => destruct b
    end; auto.
Qed.

Lemma validate_non_mapping_witness :
  validate_config
    (Manager Base "config/host_config.yaml" (VStr "mqtt over tls"))
    [("mqtt", ESchema [("host", EType TStr)])]
  = ([MissingKey "mqtt"], false)
  \/ validate_config
       (Manager Base "config/host_config.yaml" (VStr "mqtt over tls"))
       [("mqtt", ESchema [("host", EType TStr)])]
     = ([ValidationFailed TypeError], false).
Proof.
  apply (validate_non_mapping
           (Manager Base "config/host_config.yaml" (VStr "mqtt over tls"))
           "mqtt" (ESchema [("host", EType TStr)]) []).
  reflexivity.
Defined.

(** *** Validation after a save *)

Lemma kind_yaml_order (v : value) (t : pytype) :
  kind_or_bool_as_int (yaml_order v) t = kind_or_bool_as_int v t.
Proof. destruct v; reflexivity. Qed.

Lemma dict_get_yaml_order (d : dict) (k : string) :
  dict_get (sort_items (map (fun kv => (fst kv, yaml_order (snd kv))) d)) k
  = option_map yaml_order (dict_get d k).
Proof. now rewrite dict_get_sort_items, dict_get_map_values. Qed.

(** The order in which the dump lists the keys changes neither the
    violations of a schema nor the conformance to it. *)
Lemma violations_yaml_order : forall e key item,
  violations_at kind_or_bool_as_int key e (option_map yaml_order item)
  = violations_at kind_or_bool_as_int key e item
  /\ conforms_at kind_or_bool_as_int e (option_map yaml_order item)
     = conforms_at kind_or_bool_as_int e item.
Proof.
  induction e as [t | s Hs] using expected_nested_ind; intros key item.
  - destruct item as [v|]; cbn [option_map violations_at conforms_at];
      [|auto]. now rewrite kind_yaml_order.
  - destruct item as [v|]; [|split; reflexivity].
    destruct v; try (split; reflexivity).
    cbn [option_map yaml_order violations_at conforms_at].
    induction Hs as [|[k e'] more Hhd Htl IH]; [split; reflexivity|].
    cbn [flat_map forallb fst snd]. rewrite dict_get_yaml_order.
    cbn [snd] in Hhd.
    destruct (Hhd k (dict_get d k)) as [-> ->].
    destruct IH as [-> ->]. split; reflexivity.
Qed.

Lemma violations_sorted (d : dict) (s : schema) :
  violations kind_or_bool_as_int
    (sort_items (map (fun kv => (fst kv, yaml_order (snd kv))) d)) s
  = violations kind_or_bool_as_int d s
  /\ conforms kind_or_bool_as_int
       (sort_items (map (fun kv => (fst kv, yaml_order (snd kv))) d)) s
     = conforms kind_or_bool_as_int d s.
Proof.
  unfold violations, conforms.
  induction s as [|[k e] more IH]; [split; reflexivity|].
  cbn [flat_map forallb fst snd]. rewrite dict_get_yaml_order.
  destruct (violations_yaml_order e k (dict_get d k)) as [-> ->].
  destruct IH as [-> ->]. split; reflexivity.
Qed.

(** A store whose tree is a mapping is saved, and a store of the base
    class is built from the file written, with no override variable set.
    The construction returns; the new tree is the old one with the keys
    of every mapping in the order of the dump; and every schema is
    answered by the new store as by the old one, with the same entry
    logged. *)
Theorem saved_store_validates_alike (self : manager) (path : option string)
  (w w' : world) (d : dict) :
  _config self = VDict d ->
  save_config self path w = (w', None) ->
  no_override_set (environ w) = true ->
  exists m',
    __init__ Base (save_target self path) w' = Ok m'
    /\ _config m' = yaml_order (VDict d)
    /\ forall s, validate_config m' s = validate_config self s.
Proof.
  intros Hcfg Hsave Hn. unfold save_config in Hsave.
  destruct (writable w (save_target self path)); [|discriminate].
  injection Hsave as <-. rewrite Hcfg.
  exists (Manager Base (save_target self path) (yaml_order (VDict d))).
  split; [|split].
  - unfold __init__, _load_config, _apply_env_overrides.
    cbn [config_path files write_file environ].
    rewrite String.eqb_refl.
    rewrite (apply_overrides_none_set _ _ _ Hn).
    cbn [with_config class_of config_path yaml_order truthy].
    destruct (sort_items _); reflexivity.
  - reflexivity.
  - intros s. unfold validate_config. cbn [_config yaml_order]. rewrite Hcfg.
    destruct (validate_recursive_checked
                (sort_items (map (fun kv => (fst kv, yaml_order (snd kv))) d)) s)
      as [-> _].
    destruct (validate_recursive_checked d s) as [-> _].
    now destruct (violations_sorted d s) as [-> ->].
Qed.

Lemma saved_store_validates_alike_witness :
  exists m',
    __init__ Base "config/host_config.yaml"
      (write_file (mk_world [] [])
         "config/host_config.yaml"
         (Document (VDict [("dashboard", VDict [("port", VInt 8080)]);
                           ("mqtt", VDict [("host", VStr "0.0.0.0")])])))
    = Ok m'
    /\ _config m'
       = yaml_order (VDict [("mqtt", VDict [("host", VStr "0.0.0.0")]);
                            ("dashboard", VDict [("port", VInt 8080)])])
    /\ forall s,
         validate_config m' s
         = validate_config
             (Manager Host "config/host_config.yaml"
                (VDict [("mqtt", VDict [("host", VStr "0.0.0.0")]);
                        ("dashboard", VDict [("port", VInt 8080)])])) s.
Proof.
  apply (saved_store_validates_alike
           (Manager Host "config/host_config.yaml"
              (VDict [("mqtt", VDict [("host", VStr "0.0.0.0")]);
                      ("dashboard", VDict [("port", VInt 8080)])]))
           None (mk_world [] [])
           (write_file (mk_world [] [])
              "config/host_config.yaml"
              (Document (VDict [("dashboard", VDict [("port", VInt 8080)]);
                                ("mqtt", VDict [("host", VStr "0.0.0.0")])])))
           [("mqtt", VDict [("host", VStr "0.0.0.0")]);
            ("dashboard", VDict [("port", VInt 8080)])]).
  - reflexivity.
  - reflexivity.
  - reflexivity.
Defined.

(** * Properties of the logger *)

Import Logger.

(** *** Sizes *)

Lemma upper_app (a b : string) :
  upper (a ++ b) = (upper a ++ upper b)%string.
Proof. induction a as [|c a IH]; cbn; [reflexivity | now rewrite IH]. Qed.

Lemma upper_app_inv (a : string) : forall s b,
  upper s = (a ++ b)%string ->
  exists d u, s = (d ++ u)%string /\ upper d = a /\ upper u = b.
Proof.
  induction a as [|c a IH]; intros s b H.
  - exists EmptyString, s. auto.
  - destruct s as [|c' s']; [discriminate|].
    cbn in H. injection H as Hc Hs.
    destruct (IH _ _ Hs) as (d & u & -> & Hd & Hu).
    exists (String c' d), u. cbn. now rewrite Hc, Hd.
Qed.

Lemma endswith_app (p suffix : string) : endswith (p ++ suffix) suffix = true.
Proof.
  induction p as [|c p IH]; cbn [append].
  - destruct suffix; cbn; now rewrite ?String.eqb_refl, ?Ascii.eqb_refl.
  - cbn [endswith]. rewrite IH. now destruct (String.eqb _ _).
Qed.

Lemma endswith_inv (s suffix : string) :
  endswith s suffix = true -> exists p, s = (p ++ suffix)%string.
Proof.
  induction s as [|c s IH]; cbn [endswith].
  - destruct (String.eqb "" suffix) eqn:E; [|discriminate].
    apply String.eqb_eq in E. exists EmptyString. now subst.
  - destruct (String.eqb (String c s) suffix) eqn:E.
    + apply String.eqb_eq in E. exists EmptyString. now subst.
    + intros H. destruct (IH H) as (p & ->). now exists (String c p).
Qed.

Lemma length_app (a b : string) :
  String.length (a ++ b) = (String.length a + String.length b)%nat.
Proof. induction a as [|c a IH]; cbn; [reflexivity | now rewrite IH]. Qed.

(** Two strings with tails of the same length are equal only when the
    tails are. *)
Lemma app_tail_inj (x : string) : forall p u u',
  String.length u = String.length u' ->
  (x ++ u)%string = (p ++ u')%string -> u = u'.
Proof.
  induction x as [|c x IH]; intros p u u' Hlen H.
  - destruct p as [|c' p]; [assumption|].
    cbn in H. subst u. cbn in Hlen. rewrite length_app in Hlen. lia.
  - destruct p as [|c' p].
    + cbn in H. subst u'. cbn in Hlen. rewrite length_app in Hlen. lia.
    + cbn in H. injection H as _ H. eapply IH; eauto.
Qed.

Lemma substring_app (p u : string) : substring 0 (String.length p) (p ++ u) = p.
Proof.
  induction p as [|c p IH]; cbn.
  - destruct u; reflexivity.
  - now rewrite IH.
Qed.

Lemma drop_last2_app (p : string) (a b : ascii) :
  drop_last2 (p ++ String a (String b EmptyString)) = p.
Proof.
  unfold drop_last2. rewrite length_app. cbn [String.length].
  replace (String.length p + 2 - 2)%nat with (String.length p) by lia.
  apply substring_app.
Qed.

Lemma upper_char_facts (c : ascii) :
  is_space (upper_char c) = is_space c
  /\ digit_val (upper_char c) = digit_val c
  /\ Ascii.eqb (upper_char c) underscore = Ascii.eqb c underscore
  /\ Ascii.eqb (upper_char c) "-"%char = Ascii.eqb c "-"%char
  /\ Ascii.eqb (upper_char c) "+"%char = Ascii.eqb c "+"%char.
Proof.
  destruct c as [[] [] [] [] [] [] [] []]; vm_compute; repeat split.
Qed.

Lemma list_of_upper (s : string) :
  list_ascii_of_string (upper s) = map upper_char (list_ascii_of_string s).
Proof. induction s as [|c s IH]; cbn; [reflexivity | now rewrite IH]. Qed.

Lemma lstrip_upper (l : list ascii) :
  lstrip (map upper_char l) = map upper_char (lstrip l).
Proof.
  induction l as [|c l IH]; [reflexivity|]. cbn [map lstrip].
  destruct (upper_char_facts c) as (-> & _).
  destruct (is_space c); [exact IH | reflexivity].
Qed.

Lemma strip_upper (l : list ascii) :
  strip (map upper_char l) = map upper_char (strip l).
Proof.
  unfold strip. now rewrite lstrip_upper, <- map_rev, lstrip_upper, map_rev.
Qed.

Lemma digits_from_upper (n : nat) : forall l acc cnt,
  (length l <= n)%nat ->
  digits_from acc cnt (map upper_char l) = digits_from acc cnt l.
Proof.
  induction n as [|n IH]; intros l acc cnt Hlen.
  - destruct l; [reflexivity | cbn in Hlen; lia].
  - destruct l as [|c l']; [reflexivity|].
    cbn [map digits_from]. cbn [length] in Hlen.
    destruct (upper_char_facts c) as (_ & -> & -> & _).
    destruct (digit_val c); [apply IH; lia|].
    destruct (Ascii.eqb c underscore); [|reflexivity].
    destruct l' as [|c' l'']; [reflexivity|]. cbn [map].
    destruct (upper_char_facts c') as (_ & -> & _).
    destruct (digit_val c'); [|reflexivity].
    cbn [length] in Hlen. apply IH. lia.
Qed.

Lemma digitpart_upper (l : list ascii) :
  digitpart (map upper_char l) = digitpart l.
Proof.
  destruct l as [|c l']; [reflexivity|]. cbn [map digitpart].
  destruct (upper_char_facts c) as (_ & -> & _).
  destruct (digit_val c); [|reflexivity].
  eapply digits_from_upper; eauto.
Qed.

(** [int] reads a string and its upper-case form alike. *)
Lemma py_int_upper (s : string) : py_int (upper s) = py_int s.
Proof.
  unfold py_int. rewrite list_of_upper, strip_upper.
  destruct (strip (list_ascii_of_string s)) as [|c l]; [reflexivity|].
  cbn [map split_sign].
  destruct (upper_char_facts c) as (_ & _ & _ & -> & ->).
  destruct (Ascii.eqb c "-"); [now rewrite digitpart_upper|].
  destruct (Ascii.eqb c "+"); [now rewrite digitpart_upper|].
  change (upper_char c :: map upper_char l) with (map upper_char (c :: l)).
  now rewrite digitpart_upper.
Qed.

Lemma has_char_app_r (c : ascii) (a b : string) :
  has_char c b = true -> has_char c (a ++ b) = true.
Proof.
  intros H. induction a as [|x a IH]; cbn; [assumption|].
  now rewrite IH, orb_true_r.
Qed.

(** A string that ends in a unit is no integer literal. *)
Lemma unit_suffix_no_int (t p : string) (a : ascii) :
  t = (p ++ String a (String "B" EmptyString))%string -> py_int t = None.
Proof.
  intros ->. apply (py_int_reject "B"%char eq_refl).
  apply has_char_app_r. cbn. now rewrite orb_true_r.
Qed.

Lemma endswith_other_unit (p : string) (a b : ascii) :
  a <> b ->
  endswith (p ++ String a (String "B" EmptyString))
           (String b (String "B" EmptyString)) = false.
Proof.
  intros Hab.
  destruct (endswith _ _) eqn:E; [|reflexivity].
  apply endswith_inv in E as (q & E).
  apply app_tail_inj in E; [|reflexivity]. congruence.
Qed.



(** *** Coloured level names *)

(** Whatever the level name, the coloured name is no key of the table:
    it starts with the escape character. *)
Lemma colored_not_a_level (l : string) :
  table_get COLORS (color_of l ++ l ++ COLORS_RESET) = None.
Proof.
  assert (H : exists rest, color_of l = String esc rest).
  { unfold color_of.
    destruct (table_get COLORS l) as [c|] eqn:E; [|eexists; reflexivity].
    unfold COLORS in E. cbn [table_get] in E.
    repeat match type of E with
           | (if ?b then _ else _) = _ =>
               destruct b; [injection E as <-; eexists; reflexivity|]
           end.
    discriminate. }
  destruct H as (rest & ->). reflexivity.
Qed.

(** [ColoredFormatter.format] changes the record it is given: the level
    name is left wrapped in its colour, so a formatter that runs later on
    the same record reads the escape codes, and a second pass of the
    coloured formatter finds no colour for the wrapped name and wraps it
    once more, between two resets. *)
Theorem colored_format_wraps_again (base_format : log_record -> string)
  (record : log_record) :
  let once := fst (ColoredFormatter_format base_format record) in
  let twice := fst (ColoredFormatter_format base_format once) in
  levelname once
  = (color_of (levelname record) ++ levelname record ++ COLORS_RESET)%string
  /\ levelname twice
     = (COLORS_RESET ++ levelname once ++ COLORS_RESET)%string
  /\ snd (ColoredFormatter_format base_format record) = base_format once
  /\ String.length (levelname record) < String.length (levelname once).
Proof.
  cbn zeta. unfold ColoredFormatter_format. cbn [fst snd levelname set_levelname].
  repeat split.
  - unfold color_of at 1. now rewrite colored_not_a_level.
  - rewrite !length_app.
    assert (0 < String.length COLORS_RESET) by (cbn; lia). lia.
Qed.

(** *** Structured entries *)

Lemma is_skipped_false_neq (k k0 : string) :
  is_skipped k = true -> is_skipped k0 = false -> k0 <> k.
Proof. intros H1 H2 ->. congruence. Qed.

Lemma dict_get_none_notin (l : dict) (k : string) :
  ~ In k (map fst l) -> dict_get l k = None.
Proof.
  induction l as [|[k0 v0] l IH]; [reflexivity|]. cbn [map fst In dict_get].
  intros H. destruct (String.eqb k k0) eqn:E.
  - apply String.eqb_eq in E. subst. tauto.
  - apply IH. tauto.
Qed.

(** What the loop over the items leaves at a key. *)
Lemma extras_loop_get (k : string) : forall l entry,
  NoDup (map fst l) ->
  dict_get
    (fold_left (fun log_entry kv =>
                  if is_skipped (fst kv) then log_entry
                  else dict_set log_entry (fst kv) (snd kv)) l entry) k
  = if is_skipped k then dict_get entry k
    else match dict_get l k with
         | Some v => Some v
         | None => dict_get entry k
         end.
Proof.
  induction l as [|[k0 v0] l IH]; intros entry Hnd.
  - cbn [fold_left dict_get]. now destruct (is_skipped k).
  - cbn [map fst] in Hnd. inversion Hnd as [|? ? Hnotin Hnd']; subst.
    cbn [fold_left fst snd]. rewrite (IH _ Hnd'). cbn [dict_get].
    destruct (is_skipped k) eqn:Hk.
    + destruct (is_skipped k0) eqn:Hk0; [reflexivity|].
      apply dict_get_set_other. eapply is_skipped_false_neq; eauto.
    + destruct (String.eqb k k0) eqn:E.
      * apply String.eqb_eq in E. subst k0. rewrite Hk.
        rewrite (dict_get_none_notin _ _ Hnotin).
        now rewrite dict_get_set_same.
      * apply String.eqb_neq in E.
        destruct (dict_get l k); [reflexivity|].
        destruct (is_skipped k0); [reflexivity|].
        apply dict_get_set_other. congruence.
Qed.

(** The entry that [JSONFormatter.format] serialises holds every field of
    the record whose name is not in the skipped tuple, with its value,
    also when the name is that of a standard entry ([level], [logger],
    [timestamp], [message], ...), which is then replaced; a field whose
    name is skipped never enters; and a standard entry that no field
    replaces is as it was built. *)
Theorem json_entry_fields (isoformat : value -> string)
  (getMessage : log_record -> string) (formatException : value -> string)
  (record : log_record) :
  NoDup (map fst (others record)) ->
  (forall k v,
      dict_get (others record) k = Some v ->
      is_skipped k = false ->
      dict_get (JSONFormatter_entry isoformat getMessage formatException record) k
      = Some v)
  /\ (forall k,
         is_skipped k = true \/ dict_get (others record) k = None ->
         dict_get (JSONFormatter_entry isoformat getMessage formatException record) k
         = dict_get (standard_entry isoformat getMessage formatException record) k).
Proof.
  intros Hnd. unfold JSONFormatter_entry. split.
  - intros k v Hk Hs. rewrite (extras_loop_get k _ _ Hnd). now rewrite Hs, Hk.
  - intros k [Hs | Hk]; rewrite (extras_loop_get k _ _ Hnd).
    + now rewrite Hs.
    + rewrite Hk. now destruct (is_skipped k).
Qed.

Lemma json_entry_fields_witness :
  dict_get
    (JSONFormatter_entry (fun _ => "2024-01-01T00:00:00") (fun _ => "Sensor reading")
       (fun _ => "")
       (LogRecord "host_main" "INFO" "logger" "info" 138 (VInt 0) VNone
          [("sensor_id", VStr "s1"); ("level", VInt 3); ("msg", VStr "x")]))
    "level" = Some (VInt 3).
Proof.
  refine (proj1
            (json_entry_fields (fun _ => "2024-01-01T00:00:00")
               (fun _ => "Sensor reading") (fun _ => "")
               (LogRecord "host_main" "INFO" "logger" "info" 138 (VInt 0) VNone
                  [("sensor_id", VStr "s1"); ("level", VInt 3); ("msg", VStr "x")])
               _)
            "level" (VInt 3) _ _).
  - cbn [others map fst]. repeat constructor; cbn; intuition discriminate.
  - reflexivity.
  - reflexivity.
Defined.

(** *** Structured events *)

Lemma update_get (k : string) : forall kwargs data,
  NoDup (map fst kwargs) ->
  dict_get (update data kwargs) k
  = match dict_get kwargs k with
    | Some v => Some v
    | None => dict_get data k
    end.
Proof.
  unfold update.
  induction kwargs as [|[k0 v0] l IH]; intros data Hnd; [reflexivity|].
  cbn [map fst] in Hnd. inversion Hnd as [|? ? Hnotin Hnd']; subst.
  cbn [fold_left fst snd]. rewrite (IH _ Hnd'). cbn [dict_get].
  destruct (String.eqb k k0) eqn:E.
  - apply String.eqb_eq in E. subst k0.
    rewrite (dict_get_none_notin _ _ Hnotin). apply dict_get_set_same.
  - apply String.eqb_neq in E.
    destruct (dict_get l k); [reflexivity|].
    apply dict_get_set_other. congruence.
Qed.

Lemma update_has (k : string) (kwargs data : dict) :
  NoDup (map fst kwargs) ->
  dict_has (update data kwargs) k = dict_has kwargs k || dict_has data k.
Proof.
  intros Hnd. unfold dict_has. rewrite (update_get k _ _ Hnd).
  destruct (dict_get kwargs k); reflexivity.
Qed.

(** A humidity that is given but tests false, such as zero, is stored in
    the structured data of the reading and left out of its message. *)
Theorem zero_humidity_dropped_from_message (fmt : value -> string)
  (sensor_id temperature humidity : value) (kwargs : dict) :
  NoDup (map fst kwargs) ->
  humidity <> VNone ->
  truthy humidity = false ->
  dict_has kwargs "humidity" = false ->
  dict_has kwargs "self" = false ->
  dict_has kwargs "message" = false ->
  exists data,
    sensor_reading fmt sensor_id temperature humidity kwargs
    = Ok (("Sensor reading: T=" ++ fmt temperature ++ degree ++ "C")%string,
          data)
    /\ dict_get data "humidity" = Some humidity.
Proof.
  intros Hnd Hn Ht Hh Hs Hm. unfold sensor_reading, info.
  rewrite Ht.
  rewrite !(update_has _ _ _ Hnd), Hs, Hm.
  assert (Hk : dict_get kwargs "humidity" = None).
  { unfold dict_has in Hh. destruct (dict_get kwargs "humidity");
      [discriminate | reflexivity]. }
  destruct humidity; try congruence;
    cbn [orb dict_has dict_get dict_set String.eqb Ascii.eqb Bool.eqb];
    (eexists; split;
     [ reflexivity | now rewrite (update_get _ _ _ Hnd), Hk ]).
Qed.

Lemma zero_humidity_dropped_from_message_witness :
  exists data,
    sensor_reading (fun _ => "21.5") (VStr "dht22-1")
      (VFloat (FDec false 215 (-1))) (VFloat (FDec false 0 0))
      [("location", VStr "attic")]
    = Ok (("Sensor reading: T=" ++ "21.5" ++ degree ++ "C")%string, data)
    /\ dict_get data "humidity" = Some (VFloat (FDec false 0 0)).
Proof.
  apply (zero_humidity_dropped_from_message (fun _ => "21.5") (VStr "dht22-1")
           (VFloat (FDec false 215 (-1))) (VFloat (FDec false 0 0))
           [("location", VStr "attic")]).
  - repeat constructor. cbn. tauto.
  - discriminate.
  - reflexivity.
  - reflexivity.
  - reflexivity.
  - reflexivity.
Defined.

(** A keyword argument named [message] makes the three event methods
    raise [TypeError]: it reaches [info] as a second value for its
    parameter. *)
Theorem message_keyword_rejected (fmt : value -> string)
  (sensor_id temperature humidity : value) (a b : string) (kwargs : dict) :
  NoDup (map fst kwargs) ->
  dict_has kwargs "message" = true ->
  sensor_reading fmt sensor_id temperature humidity kwargs = Raise TypeError
  /\ mqtt_event a b kwargs = Raise TypeError
  /\ system_event a b kwargs = Raise TypeError.
Proof.
  intros Hnd Hm. unfold sensor_reading, mqtt_event, system_event, info.
  now rewrite !(update_has _ _ _ Hnd), Hm, !orb_true_r.
Qed.

Lemma message_keyword_rejected_witness :
  mqtt_event "connect" "sensors/pi_client_001/status"
    [("message", VStr "up")] = Raise TypeError.
Proof.
  refine (proj1 (proj2
            (message_keyword_rejected (fun _ => "") VNone VNone VNone
               "connect" "sensors/pi_client_001/status"
               [("message", VStr "up")] _ _))).
  - repeat constructor. cbn. tauto.
  - reflexivity.
Defined.

(** The structured data that an event method hands to the logger holds
    every keyword argument with its value, and the tag of the method
    under [type] unless a keyword argument named [type] took its place. *)
Theorem event_data_holds_keywords (fmt : value -> string)
  (sensor_id temperature humidity : value) (a b : string) (kwargs : dict)
  (tag : string) (message : string) (data : dict) :
  NoDup (map fst kwargs) ->
  (sensor_reading fmt sensor_id temperature humidity kwargs = Ok (message, data)
   /\ tag = "sensor_reading")
  \/ (mqtt_event a b kwargs = Ok (message, data) /\ tag = "mqtt_event")
  \/ (system_event a b kwargs = Ok (message, data) /\ tag = "system_event") ->
  (forall k v, dict_get kwargs k = Some v -> dict_get data k = Some v)
  /\ (dict_get kwargs "type" = None -> dict_get data "type" = Some (VStr tag)).
Proof.
  intros Hnd H.
  assert (Hdata : exists base,
             data = update base kwargs
             /\ dict_get base "type" = Some (VStr tag)).
  { unfold sensor_reading, mqtt_event, system_event, info in H.
    destruct H as [[H ->] | [[H ->] | [H ->]]];
      match type of H with
      | (if ?c then _ else _) = _ => destruct c; [discriminate|]
      end; injection H as _ <-; eexists; (split; [reflexivity|]);
      try reflexivity.
    destruct humidity; reflexivity. }
  destruct Hdata as (base & -> & Hb). split.
  - intros k v Hk. now rewrite (update_get _ _ _ Hnd), Hk.
  - intros Hk. now rewrite (update_get _ _ _ Hnd), Hk.
Qed.

Lemma event_data_holds_keywords_witness :
  dict_get
    [("event_type", VStr "publish"); ("topic", VStr "sensors/a/data");
     ("type", VStr "retained"); ("qos", VInt 1)]
    "type" = Some (VStr "retained").
Proof.
  refine (proj1
            (event_data_holds_keywords (fun _ => "") VNone VNone VNone
               "publish" "sensors/a/data"
               [("type", VStr "retained"); ("qos", VInt 1)]
               "mqtt_event" "MQTT publish: sensors/a/data"
               [("event_type", VStr "publish"); ("topic", VStr "sensors/a/data");
                ("type", VStr "retained"); ("qos", VInt 1)]
               _ _)
            "type" (VStr "retained") _).
  - repeat constructor; cbn; intuition discriminate.
  - right. left. split; reflexivity.
  - reflexivity.
Defined.

(** * The store through a save *)

Lemma assign_path_same (v : value) (path : list string) :
  forall current,
    path <> [] ->
    lookup_path current path = Some v ->
    assign_path current path v = (current, None).
Proof.
  induction path as [|k rest IH]; intros current Hne Hl; [congruence|].
  destruct current; try discriminate.
  rewrite lookup_path_cons in Hl.
  destruct (dict_get d k) as [child|] eqn:Hget; [|discriminate].
  destruct rest as [|k2 rest2].
  - cbn in Hl. injection Hl as ->.
    cbn [assign_path py_setitem]. now rewrite (dict_set_get_id _ _ _ Hget).
  - rewrite assign_path_step. cbn [py_contains]. unfold dict_has.
    rewrite Hget. cbn [py_getitem]. rewrite Hget.
    rewrite (IH child ltac:(discriminate) Hl). cbn [py_setitem fst].
    now rewrite (dict_set_get_id _ _ _ Hget).
Qed.

(** The overrides change nothing in a tree that already holds, at every
    target in force, the coerced value of the variable. *)
Lemma apply_overrides_fixed (getenv : string -> option string) :
  forall mappings config,
    (forall e p s, In (e, p) mappings -> getenv e = Some s ->
                   p <> [] /\ lookup_path config p = Some (_convert_env_value s)) ->
    apply_overrides mappings getenv config = (config, None).
Proof.
  induction mappings as [|[e p] more IH]; intros config H; [reflexivity|].
  cbn [apply_overrides].
  destruct (getenv e) as [s|] eqn:He.
  - destruct (H e p s (or_introl eq_refl) He) as [Hp Hl].
    unfold _set_nested_value. rewrite (assign_path_same _ _ _ Hp Hl).
    apply IH. intros e' p' s' Hin. apply H. now right.
  - apply IH. intros e' p' s' Hin. apply H. now right.
Qed.

Lemma fill_defaults_fixed (defaults : dict) (config : value) :
  (forall key, In key (map fst defaults) -> py_contains key config = Ok true) ->
  fill_defaults defaults config = (config, None).
Proof.
  induction defaults as [|[key dv] more IH]; intros H; [reflexivity|].
  cbn [fill_defaults]. rewrite (H key (or_introl eq_refl)).
  apply IH. intros k Hk. apply H. now right.
Qed.

Lemma insert_item_nonempty (x : string * value) (d : dict) :
  insert_item x d <> [].
Proof. destruct d; cbn; [discriminate|]. destruct (String.leb _ _); discriminate. Qed.

Lemma truthy_yaml_order (v : value) : truthy (yaml_order v) = truthy v.
Proof.
  destruct v; try reflexivity.
  - destruct l; reflexivity.
  - destruct d as [|x d]; [reflexivity|]. cbn [yaml_order map truthy].
    change (sort_items (?a :: ?l)) with (insert_item a (sort_items l)).
    pose proof (insert_item_nonempty
                  (fst x, yaml_order (snd x))
                  (sort_items (map (fun kv => (fst kv, yaml_order (snd kv))) d))).
    destruct (insert_item _ _); [congruence | reflexivity].
Qed.

Lemma py_contains_yaml_order (k : string) (v : value) :
  py_contains k (yaml_order v) = py_contains k v.
Proof.
  destruct v; try reflexivity.
  - cbn [yaml_order py_contains]. f_equal.
    induction l as [|x l IH]; [reflexivity|]. cbn [map existsb].
    rewrite IH. now destruct x.
  - cbn [yaml_order py_contains]. unfold dict_has.
    rewrite dict_get_yaml_order. now destruct (dict_get d k).
Qed.

Lemma convert_scalar (s : string) : is_scalar (_convert_env_value s) = true.
Proof.
  unfold _convert_env_value.
  destruct (_ || _); [reflexivity|].
  destruct (py_int s); [reflexivity|]. destruct (py_float s); reflexivity.
Qed.

Lemma dict_set_nonempty (d : dict) (k : string) (v : value) :
  dict_set d k v <> [].
Proof. destruct d as [|[k0 v0] d]; cbn; [discriminate|]. destruct (String.eqb k k0); discriminate. Qed.

Lemma assign_path_truthy (v : value) (path : list string)
  (current current' : value) :
  assign_path current path v = (current', None) -> truthy current' = true.
Proof.
  destruct path as [|k [|k2 rest]]; [discriminate| |]; intros Ha.
  - apply assign_path_last_inv in Ha as (d & -> & ->). cbn.
    pose proof (dict_set_nonempty d k v). now destruct (dict_set d k v).
  - apply assign_path_step_inv in Ha as (d & child' & -> & _ & ->). cbn.
    pose proof (dict_set_nonempty d k child'). now destruct (dict_set d k child').
Qed.

Lemma apply_overrides_truthy (getenv : string -> option string) :
  forall mappings config config',
    apply_overrides mappings getenv config = (config', None) ->
    config' = config \/ truthy config' = true.
Proof.
  induction mappings as [|[e p] more IH]; intros config config' Hrun.
  - injection Hrun as <-. now left.
  - cbn [apply_overrides] in Hrun.
    destruct (getenv e) as [s|]; [|eapply IH; eauto].
    unfold _set_nested_value in Hrun.
    destruct (assign_path config p (_convert_env_value s)) as [c1 [x|]] eqn:Ha;
      [discriminate|].
    destruct (IH _ _ Hrun) as [-> | H]; [|now right].
    right. eapply assign_path_truthy; eauto.
Qed.

Lemma fill_defaults_truthy (defaults : dict) :
  forall config config',
    fill_defaults defaults config = (config', None) ->
    config' = config \/ truthy config' = true.
Proof.
  induction defaults as [|[key dv] more IH]; intros config config' Hrun.
  - injection Hrun as <-. now left.
  - cbn [fill_defaults] in Hrun.
    destruct (py_contains key config) as [[|]|]; try discriminate.
    + eapply IH; eauto.
    + destruct config; try discriminate. cbn [py_setitem] in Hrun.
      destruct (IH _ _ Hrun) as [-> | H]; [|now right].
      right. cbn. pose proof (dict_set_nonempty d key dv).
      now destruct (dict_set d key dv).
Qed.

(** The tree of a store that was just built is an empty mapping or tests
    true. *)
Lemma built_tree_truthy (c : cls) (file : string) (w : world) (m : manager) :
  __init__ c file w = Ok m ->
  _config m = VDict [] \/ truthy (_config m) = true.
Proof.
  intros Hinit.
  apply init_inv in Hinit as (r & Hload & _ & _ & _ & _ & Hfill).
  assert (Hr : _config r = VDict [] \/ truthy (_config r) = true).
  { unfold _load_config, _apply_env_overrides in Hload.
    cbn [config_path] in Hload.
    destruct (files w file) as [| |doc]; [|discriminate|].
    - destruct (apply_overrides env_mappings (environ w) (VDict []))
        as [c1 x] eqn:Hrun.
      injection Hload as <- ->. cbn [_config with_config].
      destruct (apply_overrides_truthy _ _ _ _ Hrun); auto.
    - destruct (apply_overrides env_mappings (environ w)
                  (if truthy doc then doc else VDict [])) as [c1 x] eqn:Hrun.
      injection Hload as <- ->. cbn [_config with_config].
      destruct (apply_overrides_truthy _ _ _ _ Hrun) as [-> | H]; auto.
      destruct (truthy doc) eqn:Hd; auto. }
  destruct (fill_defaults_truthy _ _ _ Hfill) as [-> | H]; auto.
Qed.

(** A store is built and saved at once, to its own path.  Built again
    from that file in the same environment, a store of the same class has
    the same tree, the keys of every mapping in the order of the dump;
    and a reload of the store itself gives it that tree. *)
Theorem rebuilt_after_save (c : cls) (file : string) (w w' : world)
  (m : manager) :
  __init__ c file w = Ok m ->
  save_config m None w = (w', None) ->
  __init__ c file w' = Ok (with_config m (yaml_order (_config m)))
  /\ reload m w' = (with_config m (yaml_order (_config m)), None).
Proof.
  intros Hinit Hsave.
  pose proof (built_tree_truthy _ _ _ _ Hinit) as Htruthy.
  apply init_inv in Hinit as (r & Hload & _ & _ & Hc & Hp & Hfill).
  unfold save_config, save_target in Hsave. rewrite Hp in Hsave.
  destruct (writable w file); [|discriminate]. injection Hsave as Hw'.
  assert (Hloaded : (if truthy (yaml_order (_config m))
                     then yaml_order (_config m) else VDict [])
                    = yaml_order (_config m)).
  { rewrite truthy_yaml_order. destruct Htruthy as [-> | ->]; reflexivity. }
  assert (Hfixed : apply_overrides env_mappings (environ w)
                     (yaml_order (_config m))
                   = (yaml_order (_config m), None)).
  { apply apply_overrides_fixed. intros e p s Hin He.
    destruct (env_mappings_split _ _ Hin) as [_ Hne]. split; [assumption|].
    rewrite yaml_order_lookup.
    rewrite (fill_defaults_keeps_lookup _ _ _ Hfill p (_convert_env_value s) Hne
               (load_config_overrides _ _ _ Hload e p s Hin He)).
    cbn [option_map]. now rewrite (yaml_order_scalar _ (convert_scalar s)). }
  assert (Hload' : forall self,
             config_path self = file ->
             _load_config self w'
             = (with_config self (yaml_order (_config m)), None)).
  { intros self Hs. unfold _load_config, _apply_env_overrides.
    rewrite Hs, <- Hw'. cbn [files write_file environ].
    rewrite String.eqb_refl, Hloaded, Hfixed. reflexivity. }
  split.
  - unfold __init__. rewrite (Hload' (Manager c file (VDict [])) eq_refl).
    unfold _apply_defaults.
    cbn [with_config class_of config_path _config].
    rewrite fill_defaults_fixed.
    + destruct m as [mc mp mt]. cbn [class_of config_path _config] in *.
      subst mc mp. now destruct c.
    + intros key Hk. rewrite py_contains_yaml_order.
      eapply fill_defaults_contains; eauto.
  - unfold reload. now rewrite (Hload' m Hp).
Qed.

Lemma rebuilt_after_save_witness :
  __init__ Host "config/host_config.yaml"
    (write_file (mk_world [] [("DASHBOARD_PORT", "9090")])
       "config/host_config.yaml"
       (Document
          (yaml_order
             (VDict (("dashboard", VDict [("port", VInt 9090)])
                     :: firstn 2 Constants.DEFAULT_HOST_CONFIG
                     ++ skipn 3 Constants.DEFAULT_HOST_CONFIG)))))
  = Ok (Manager Host "config/host_config.yaml"
          (yaml_order
             (VDict (("dashboard", VDict [("port", VInt 9090)])
                     :: firstn 2 Constants.DEFAULT_HOST_CONFIG
                     ++ skipn 3 Constants.DEFAULT_HOST_CONFIG)))).
Proof.
  refine (proj1
            (rebuilt_after_save Host "config/host_config.yaml"
               (mk_world [] [("DASHBOARD_PORT", "9090")])
               (write_file (mk_world [] [("DASHBOARD_PORT", "9090")])
                  "config/host_config.yaml"
                  (Document
                     (yaml_order
                        (VDict (("dashboard", VDict [("port", VInt 9090)])
                                :: firstn 2 Constants.DEFAULT_HOST_CONFIG
                                ++ skipn 3 Constants.DEFAULT_HOST_CONFIG)))))
               (Manager Host "config/host_config.yaml"
                  (VDict (("dashboard", VDict [("port", VInt 9090)])
                          :: firstn 2 Constants.DEFAULT_HOST_CONFIG
                          ++ skipn 3 Constants.DEFAULT_HOST_CONFIG)))
               _ _)).
  - reflexivity.
  - reflexivity.
Defined.

(** *** Files that always load *)

(** When the document of the file is a mapping in which the parent of
    every override target ([mqtt], [database], [dashboard], [logging]) is
    absent or a mapping, construction returns a store for every class and
    every environment. *)
Theorem well_shaped_file_loads (c : cls) (file : string) (w : world)
  (doc : value) :
  files w file = Document doc ->
  well_shaped (if truthy doc then doc else VDict []) = true ->
  exists m, __init__ c file w = Ok m.
Proof.
  intros Hf Hw. unfold well_shaped in Hw.
  apply andb_true_iff in Hw as [Hd Hok].
  destruct (apply_overrides_succeeds (environ w) env_mappings
              (if truthy doc then doc else VDict [])
              env_mappings_apart Hd) as (c1 & Hrun & Hd1).
  { rewrite forallb_forall in Hok. exact Hok. }
  destruct c1 as [| | | | | |d1]; try discriminate.
  destruct (fill_defaults_dict (defaults_of c) d1) as (d' & Hfill).
  exists (Manager c file (VDict d')).
  unfold __init__, _load_config, _apply_env_overrides.
  cbn [config_path]. rewrite Hf, Hrun. unfold _apply_defaults.
  cbn [with_config class_of config_path _config]. rewrite Hfill.
  destruct c; try reflexivity.
  cbn in Hfill. now injection Hfill as <-.
Qed.

Lemma well_shaped_file_loads_witness :
  exists m,
    __init__ Client "config/client_config.yaml"
      (mk_world [("config/client_config.yaml",
                  Document (VDict [("mqtt", VDict [("host", VStr "10.0.0.5")]);
                                   ("logging", VDict [])]))]
                [("MQTT_PORT", "8883"); ("LOG_LEVEL", "DEBUG")]) = Ok m.
Proof.
  apply (well_shaped_file_loads Client "config/client_config.yaml"
           (mk_world [("config/client_config.yaml",
                       Document (VDict [("mqtt", VDict [("host", VStr "10.0.0.5")]);
                                        ("logging", VDict [])]))]
                     [("MQTT_PORT", "8883"); ("LOG_LEVEL", "DEBUG")])
           (VDict [("mqtt", VDict [("host", VStr "10.0.0.5")]);
                   ("logging", VDict [])])).
  - reflexivity.
  - reflexivity.
Defined.

(** *** A schema in two parts *)

(** Validating a mapping against two schemas put end to end is
    validating against the first and, only if it passes, against the
    second: the answer and the entry logged are those of the first part
    when it fails, and those of the second part otherwise. *)
Theorem validate_schema_parts (c : cls) (file : string) (d : dict)
  (s1 s2 : schema) :
  validate_config (Manager c file (VDict d)) (s1 ++ s2)
  = if snd (validate_config (Manager c file (VDict d)) s1)
    then validate_config (Manager c file (VDict d)) s2
    else validate_config (Manager c file (VDict d)) s1.
Proof.
  unfold validate_config. cbn [_config].
  destruct (validate_recursive_checked d (s1 ++ s2)) as [-> _].
  destruct (validate_recursive_checked d s1) as [-> H1].
  destruct (validate_recursive_checked d s2) as [-> _].
  cbn [snd]. rewrite H1.
  unfold violations, conforms in *.
  rewrite flat_map_app, forallb_app, H1.
  destruct (flat_map _ s1) as [|x l]; reflexivity.
Qed.
